(** * pkg/disk/utils.go of the Alibaba Cloud CSI disk plugin

    A shallow embedding of the helpers of [pkg/disk/utils.go]: credential
    resolution ([GetLocalAK], [GetSTSAK], [GetDefaultAK]), the ECS client
    wrapper ([newEcsClient], [updateEcsClent]), the instance metadata
    lookup ([GetMetaData]), the mount counter ([GetDeviceMountNum], [run])
    and the volume option parser ([getDiskVolumeOptions]).

    Go strings are byte sequences: they are [string] of the Standard
    Library (a list of 8-bit characters).  A Go [map[string]string] is a
    [gmap string string].  Every call that leaves the process (environment,
    HTTP, the metadata and ECS SDKs, the shell) is a node of a program tree
    [Prog]; a [World] answers the calls, and running a tree in a world
    gives the value the Go function returns together with the list of
    calls it made, in order. *)

From Stdlib Require Import ZArith Ascii String List Lia.
From stdpp Require Import base option gmap strings.

Local Open Scope string_scope.

(** ** Go values *)

(** A Go [error] value, by the message [Error()] returns. *)
Definition error : Type := string.

(** The pair [(T, error)] a Go library function returns: the value when
    [err == nil], the error otherwise (the functions of this file never
    look at the value that comes with a non-nil error). *)
Inductive outcome (T : Type) : Type :=
| Done (v : T)
| Failed (err : error).
Arguments Done {T} v.
Arguments Failed {T} err.

(** [*http.Response], as far as the file reads it: the status line and
    what [ioutil.ReadAll(resp.Body)] returns. *)
Record Response : Type := mkResponse {
  StatusCode : Z;
  ReadAll : outcome string
}.

(** [metadata.RoleAuth] of the Alibaba Cloud SDK, the fields read here. *)
Record RoleAuth : Type := mkRoleAuth {
  AccessKeyId : string;
  AccessKeySecret : string;
  SecurityToken : string
}.

(** [*ecs.Client]: [None] is [nil], [Some a] the client object at address [a]. *)
Definition ecsClient : Type := option N.

(** ** Constants of the package *)

Definition METADATA_URL : string := "http://100.100.100.200/latest/meta-data/".
Definition REGIONID_TAG : string := "region-id".
Definition ZONEID_TAG : string := "zone-id".
Definition DISK_HIGH_AVAIL : string := "available".
Definition DISK_COMMON : string := "cloud".
Definition DISK_EFFICIENCY : string := "cloud_efficiency".
Definition DISK_SSD : string := "cloud_ssd".
Definition DEFAULT_REGION : string := "cn-hangzhou".

(** ** Calls that leave the process *)

Inductive Call : Type :=
| Getenv (key : string)
| HttpGet (url : string)
| MetaRole
| MetaRamRoleToken (rolename : string)
| NewClientWithAccessKey (region id secret : string)
| NewClientWithStsToken (region id secret token : string)
| CombinedOutput (name : string) (args : list string).

(** What each call hands back to the Go code. *)
Definition Resp (c : Call) : Type :=
  match c with
  | Getenv _ => string
  | HttpGet _ => outcome Response
  | MetaRole => outcome string
  | MetaRamRoleToken _ => outcome RoleAuth
  | NewClientWithAccessKey _ _ _ => outcome ecsClient
  | NewClientWithStsToken _ _ _ _ => outcome ecsClient
  | CombinedOutput _ _ => (string * option error)%type
  end.

(** A Go function body as a tree: it returns, or makes a call and goes on
    with the answer. *)
Inductive Prog (A : Type) : Type :=
| Ret (a : A)
| Do (c : Call) (k : Resp c -> Prog A).
Arguments Ret {A} a.
Arguments Do {A} c k.

Fixpoint bind {A B : Type} (p : Prog A) (f : A -> Prog B) : Prog B :=
  match p with
  | Ret a => f a
  | Do c k => Do c (fun r => bind (k r) f)
  end.

#[global] Instance Prog_ret : MRet Prog := fun A a => Ret a.
#[global] Instance Prog_bind : MBind Prog := fun A B f p => bind p f.

Definition call (c : Call) : Prog (Resp c) := Do c Ret.

(** ** The world outside the process *)

(** One answer per question.  No function of the file asks the same
    question twice in one run (see [GetDefaultAK_asks_once] and its
    siblings below), so an answer that changed between two identical calls
    could not be observed. *)
Record World : Type := mkWorld {
  os_Getenv : string -> string;
  http_Get : string -> outcome Response;
  metadata_Role : outcome string;
  metadata_RamRoleToken : string -> outcome RoleAuth;
  ecs_NewClientWithAccessKey : string -> string -> string -> outcome ecsClient;
  ecs_NewClientWithStsToken : string -> string -> string -> string -> outcome ecsClient;
  exec_CombinedOutput : string -> list string -> string * option error
}.

Definition answer (w : World) (c : Call) : Resp c :=
  match c with
  | Getenv key => os_Getenv w key
  | HttpGet url => http_Get w url
  | MetaRole => metadata_Role w
  | MetaRamRoleToken rolename => metadata_RamRoleToken w rolename
  | NewClientWithAccessKey region id secret => ecs_NewClientWithAccessKey w region id secret
  | NewClientWithStsToken region id secret token => ecs_NewClientWithStsToken w region id secret token
  | CombinedOutput name args => exec_CombinedOutput w name args
  end.

(** Run a tree: the returned value and the calls made, oldest first. *)
Fixpoint exec {A : Type} (w : World) (p : Prog A) : A * list Call :=
  match p with
  | Ret a => (a, [])
  | Do c k => let '(a, t) := exec w (k (answer w c)) in (a, c :: t)
  end.

Definition result {A : Type} (w : World) (p : Prog A) : A := fst (exec w p).
Definition trace {A : Type} (w : World) (p : Prog A) : list Call := snd (exec w p).

(** ** Credential resolution *)

Definition GetLocalAK : Prog (string * string) :=
  accessKeyID ← call (Getenv "ACCESS_KEY_ID");
  accessSecret ← call (Getenv "ACCESS_KEY_SECRET");
  if negb (accessKeyID =? "") && negb (accessSecret =? "")
  then mret (accessKeyID, accessSecret)
  else mret (accessKeyID, accessSecret).

Definition GetSTSAK : Prog (string * string * string) :=
  r ← call MetaRole;
  match r with
  | Failed _ => mret ("", "", "")
  | Done rolename =>
      t ← call (MetaRamRoleToken rolename);
      match t with
      | Failed _ => mret ("", "", "")
      | Done role => mret (AccessKeyId role, AccessKeySecret role, SecurityToken role)
      end
  end.

Definition GetDefaultAK : Prog (string * string * string) :=
  '(accessKeyID, accessSecret) ← GetLocalAK;
  let accessToken := "" in
  if (accessKeyID =? "") || (accessSecret =? "")
  then GetSTSAK
  else mret (accessKeyID, accessSecret, accessToken).

(** ** The ECS client wrapper *)

Definition newEcsClient (access_key_id access_key_secret access_token : string) : Prog ecsClient :=
  if access_token =? ""
  then
    r ← call (NewClientWithAccessKey DEFAULT_REGION access_key_id access_key_secret);
    match r with
    | Failed _ => mret None
    | Done ecsClient => mret ecsClient
    end
  else
    r ← call (NewClientWithStsToken DEFAULT_REGION access_key_id access_key_secret access_token);
    match r with
    | Failed _ => mret None
    | Done ecsClient => mret ecsClient
    end.

Definition updateEcsClent (client : ecsClient) : Prog ecsClient :=
  '(accessKeyID, accessSecret, accessToken) ← GetDefaultAK;
  if negb (accessToken =? "")
  then newEcsClient accessKeyID accessSecret accessToken
  else mret client.

(** ** Instance metadata *)

Definition GetMetaData (resource : string) : Prog string :=
  r ← call (HttpGet (METADATA_URL ++ resource));
  match r with
  | Failed _ => mret ""
  | Done resp =>
      match ReadAll resp with
      | Failed _ => mret ""
      | Done body => mret body
      end
  end.

(** ** Functions of the Go library, on bytes *)

(** The line feed the shell ends its output with. *)
Definition LF : string := String "010"%char EmptyString.

(** The double quote of the second shell command. *)
Definition DQUOTE : string := String "034"%char EmptyString.

Module strings.

(** [strings.HasSuffix] and [strings.TrimSuffix]. *)
Definition HasSuffix (s suffix : string) : bool :=
  (String.length suffix <=? String.length s)%nat
  && (substring (String.length s - String.length suffix) (String.length suffix) s =? suffix).

Definition TrimSuffix (s suffix : string) : string :=
  if HasSuffix s suffix
  then substring 0 (String.length s - String.length suffix) s
  else s.

(** [strings.ToLower] looks for a byte at or above [utf8.RuneSelf] and
    for an upper-case ASCII letter; an all-ASCII string is lowered byte
    by byte, any other goes through [strings.Map(unicode.ToLower, s)]. *)
Definition isUpperByte (c : ascii) : bool :=
  (65 <=? N_of_ascii c)%N && (N_of_ascii c <=? 90)%N.

Definition lowerByte (c : ascii) : ascii :=
  if isUpperByte c then ascii_of_N (N_of_ascii c + 32) else c.

Fixpoint isASCII (s : string) : bool :=
  match s with
  | EmptyString => true
  | String c r => (N_of_ascii c <? 128)%N && isASCII r
  end.

Fixpoint hasUpper (s : string) : bool :=
  match s with
  | EmptyString => false
  | String c r => isUpperByte c || hasUpper r
  end.

Fixpoint mapBytes (f : ascii -> ascii) (s : string) : string :=
  match s with
  | EmptyString => EmptyString
  | String c r => String (f c) (mapBytes f r)
  end.

(** The Unicode case tables belong to the Go runtime, not to the
    repository: [mapUnicodeToLower s] stands for
    [strings.Map(unicode.ToLower, s)], which [ToLower] only reaches for a
    string that holds a byte outside ASCII. *)
Class UnicodeTables : Type := { mapUnicodeToLower : string -> string }.

Definition ToLower {U : UnicodeTables} (s : string) : string :=
  if isASCII s
  then (if hasUpper s then mapBytes lowerByte s else s)
  else mapUnicodeToLower s.

End strings.

Module strconv.

Definition ErrSyntax : error := "invalid syntax".
Definition ErrRange : error := "value out of range".

Definition digit (c : ascii) : option Z :=
  let n := Z.of_N (N_of_ascii c) in
  if (48 <=? n)%Z && (n <=? 57)%Z then Some (n - 48)%Z else None.

Fixpoint digits (s : string) (acc : Z) : option Z :=
  match s with
  | EmptyString => Some acc
  | String c r =>
      match digit c with
      | Some d => digits r (acc * 10 + d)%Z
      | None => None
      end
  end.

(** [strconv.Atoi] where [int] has 64 bits: an optional sign, then one
    decimal digit or more and nothing else; a value outside
    [-2^63, 2^63 - 1] is a range error. *)
Definition Atoi (s : string) : outcome Z :=
  match s with
  | EmptyString => Failed ErrSyntax
  | String c r =>
      let neg := Ascii.eqb c "-"%char in
      let body := if neg || Ascii.eqb c "+"%char then r else s in
      match body with
      | EmptyString => Failed ErrSyntax
      | _ =>
          match digits body 0 with
          | None => Failed ErrSyntax
          | Some n =>
              let v := if neg then (- n)%Z else n in
              if (- 2 ^ 63 <=? v)%Z && (v <? 2 ^ 63)%Z then Done v else Failed ErrRange
          end
      end
  end.

End strconv.

Module fmt.

(** Does the format hold a [%], the byte that starts a verb? *)
Fixpoint hasVerb (format : string) : bool :=
  match format with
  | EmptyString => false
  | String c r => Ascii.eqb c "%"%char || hasVerb r
  end.

(** The verb machinery of package [fmt] belongs to the Go library, not to
    the repository: [expandVerbs format] stands for what
    [fmt.Sprintf(format)], called with no operand, prints for a format
    that holds a [%] (for one, [%!d(MISSING)] in place of [%d]). *)
Class Formatter : Type := { expandVerbs : string -> string }.

(** [fmt.Errorf(format)] with no operand, by the message of the error it
    makes: [fmt] copies a format without [%] byte for byte, and expands
    the verbs of any other. *)
Definition Errorf {F : Formatter} (format : string) : error :=
  if hasVerb format then expandVerbs format else format.

End fmt.

(** ** Counting the mounts of a device *)

Definition run (cmd : string) : Prog (string * option error) :=
  '(out, err) ← call (CombinedOutput "sh" ["-c"; cmd]);
  match err with
  | Some e =>
      mret (EmptyString,
            Some ("Failed to run cmd: " ++ cmd ++ ", with out: " ++ out ++ ", error: " ++ e ++ " "))
  | None => mret (out, None)
  end.

Definition deviceCmd (targetPath : string) : string :=
  "mount | grep " ++ targetPath ++ "  | grep -v grep | awk '{print $1}'".

Definition deviceNumCmd (deviceCmdOut : string) : string :=
  "mount | grep " ++ DQUOTE ++ deviceCmdOut ++ " " ++ DQUOTE ++ " | grep -v grep | wc -l".

Definition GetDeviceMountNum (targetPath : string) : Prog Z :=
  '(deviceCmdOut, err) ← run (deviceCmd targetPath);
  match err with
  | Some _ => mret 0%Z
  | None =>
      let deviceCmdOut := strings.TrimSuffix deviceCmdOut LF in
      '(deviceNumOut, err) ← run (deviceNumCmd deviceCmdOut);
      match err with
      | Some _ => mret 0%Z
      | None =>
          let deviceCmdOut := strings.TrimSuffix deviceCmdOut LF in
          match strconv.Atoi deviceNumOut with
          | Failed _ => mret 0%Z
          | Done num => mret num
          end
      end
  end.

(** ** The volume option parser *)

(** Modelled from the spec: the declaration of the struct [diskVolumeArgs]
    is not among the sources.  It has the fields [getDiskVolumeOptions]
    assigns, which are the zone, region, filesystem type, category,
    read-only and encryption fields of the VolumeRequest of the
    specification; the disk and node identifiers of that request are never
    touched by the parser and are left out.  [Type_] is the Go field
    [Type]. *)
Record diskVolumeArgs : Type := mkDiskVolumeArgs {
  ZoneId : string;
  RegionId : string;
  FsType : string;
  Type_ : string;
  ReadOnly : bool;
  Encrypted : bool
}.

Section VolumeOptions.
Context {U : strings.UnicodeTables} {F : fmt.Formatter}.

(** The test both boolean-like options go through. *)
Definition truthy (value : string) : bool :=
  let value := strings.ToLower value in
  (value =? "yes") || (value =? "true") || (value =? "1").

(** The Go function returns a pointer to a [diskVolumeArgs] and an
    [error]; [None] is [nil] in either place. *)
Definition getDiskVolumeOptions (volOptions : gmap string string)
  : Prog (option diskVolumeArgs * option error) :=
  zoneId ← match volOptions !! "zoneId" with
           | Some v => mret v
           | None => GetMetaData ZONEID_TAG
           end;
  regionId ← match volOptions !! "regionId" with
             | Some v => mret v
             | None => GetMetaData REGIONID_TAG
             end;
  let fsType := match volOptions !! "fsType" with
                | Some v => v
                | None => "ext4"
                end in
  if negb (fsType =? "ext4") && negb (fsType =? "ext3")
  then mret (None, Some (fmt.Errorf "illegal required parameter fsType"))
  else
    let type := match volOptions !! "type" with
                | Some v => v
                | None => DISK_HIGH_AVAIL
                end in
    if negb (type =? DISK_HIGH_AVAIL) && negb (type =? DISK_COMMON)
       && negb (type =? DISK_EFFICIENCY) && negb (type =? DISK_SSD)
    then mret (None, Some (fmt.Errorf ("Illegal required parameter type" ++ type)))
    else
      let readOnly := match volOptions !! "readOnly" with
                      | None => false
                      | Some value => truthy value
                      end in
      let encrypted := match volOptions !! "encrypted" with
                       | None => false
                       | Some value => truthy value
                       end in
      mret (Some (mkDiskVolumeArgs zoneId regionId fsType type readOnly encrypted), None).

End VolumeOptions.

(** The options map a parsed request is written back to, after the
    specification's words (zone, region, filesystem type, category,
    read-only, encrypted, each as its canonical string); the source has no
    such function. *)
Definition canonicalBool (b : bool) : string := if b then "true" else "false".

Definition canonicalOptions (a : diskVolumeArgs) : gmap string string :=
  <["zoneId" := ZoneId a]>
  (<["regionId" := RegionId a]>
  (<["fsType" := FsType a]>
  (<["type" := Type_ a]>
  (<["readOnly" := canonicalBool (ReadOnly a)]>
  (<["encrypted" := canonicalBool (Encrypted a)]> ∅))))).

(** ** Worlds used in the examples *)

(** A node with no credentials in its environment, no metadata service
    and a shell that fails. *)
Definition bare_world : World :=
  mkWorld (fun _ => EmptyString)
          (fun _ => Failed "dial tcp 100.100.100.200:80: i/o timeout")
          (Failed "dial tcp 100.100.100.200:80: i/o timeout")
          (fun _ => Failed "dial tcp 100.100.100.200:80: i/o timeout")
          (fun _ _ _ => Failed "no credentials")
          (fun _ _ _ _ => Failed "no credentials")
          (fun _ _ => (EmptyString, Some "exit status 127")).

(** The same node with both access key variables set. *)
Definition static_key_world : World :=
  mkWorld (fun key => if key =? "ACCESS_KEY_ID" then "LTAIstatic"
                      else if key =? "ACCESS_KEY_SECRET" then "s3cr3t"
                      else EmptyString)
          (http_Get bare_world)
          (Done "csi-role")
          (fun _ => Done (mkRoleAuth "STS.id" "STS.secret" "STS.token"))
          (fun _ _ _ => Done (Some 1%N))
          (fun _ _ _ _ => Done (Some 2%N))
          (exec_CombinedOutput bare_world).

(** A node with an instance role: empty environment, the metadata service
    names the role [csi-role] and hands out a token for it; zone and
    region are served as plain text. *)
Definition role_world : World :=
  mkWorld (fun _ => EmptyString)
          (fun url => if url =? METADATA_URL ++ ZONEID_TAG
                      then Done (mkResponse 200 (Done "cn-hangzhou-b"))
                      else if url =? METADATA_URL ++ REGIONID_TAG
                      then Done (mkResponse 200 (Done "cn-hangzhou"))
                      else Done (mkResponse 404 (Done "404 - Not Found")))
          (Done "csi-role")
          (fun rolename => if rolename =? "csi-role"
                           then Done (mkRoleAuth "STS.id" "STS.secret" "STS.token")
                           else Failed "role not found")
          (fun _ _ _ => Done (Some 1%N))
          (fun _ _ _ _ => Done (Some 2%N))
          (fun name args =>
             match args with
             | [_; cmd] =>
                 if cmd =? deviceCmd "/mnt/disk"
                 then ("/dev/vdb" ++ LF, None)
                 else if cmd =? deviceNumCmd "/dev/vdb"
                 then ("3" ++ LF, None)
                 else (EmptyString, Some "exit status 1")
             | _ => (EmptyString, Some "exit status 2")
             end).

(** Go's strings without the Unicode tables: enough for the examples,
    which are all ASCII. *)
Definition ascii_only : strings.UnicodeTables :=
  {| strings.mapUnicodeToLower := fun s => s |}.

(** Go's [fmt] without its verbs: enough for the examples, whose formats
    hold no [%]. *)
Definition plain_formats : fmt.Formatter :=
  {| fmt.expandVerbs := fun format => format |}.

(** The STS chain gives nothing: the role lookup fails, or the token
    request for the role it named fails. *)
Definition sts_fails (w : World) : Prop :=
  match metadata_Role w with
  | Failed _ => True
  | Done rolename =>
      match metadata_RamRoleToken w rolename with
      | Failed _ => True
      | Done _ => False
      end
  end.

(** The calls that build an ECS client. *)
Definition builds_client (c : Call) : bool :=
  match c with
  | NewClientWithAccessKey _ _ _ | NewClientWithStsToken _ _ _ _ => true
  | _ => false
  end.

(** The last byte of a string, [None] for the empty string. *)
Fixpoint last_byte (s : string) : option ascii :=
  match s with
  | EmptyString => None
  | String c EmptyString => Some c
  | String _ r => last_byte r
  end.

(** ** The host's filesystem

    [IsFileExisting], [IsDirEmpty], [createDest] and [execCommand] are the
    remaining helpers of the file.  The first three talk to the
    filesystem of the node through package [os]; their calls and the
    answers are kept apart from the network calls above, in the same
    manner: a tree of calls, a host that answers them, and a run that
    gives the returned value and the calls made. *)

Module hostfs.

(** The error values package [os] hands to these functions: the end-of-
    directory mark [io.EOF], an [*os.PathError] around a [syscall.Errno],
    and the errors made with [fmt.Errorf]. *)
Inductive oserror : Type :=
| EOF
| PathError (Op Path : string) (Err : N)
| errorString (s : string).

(** [syscall.Errno] values of Linux. *)
Definition ENOENT : N := 2.
Definition EACCES : N := 13.
Definition ENOTDIR : N := 20.

(** [os.IsNotExist]: false for [nil], true for a path error whose errno
    is [ENOENT]. *)
Definition IsNotExist (err : option oserror) : bool :=
  match err with
  | Some (PathError _ _ errno) => (errno =? ENOENT)%N
  | _ => false
  end.

(** [os.FileInfo], by its name and what [IsDir()] returns. *)
Record FileInfo : Type := mkFileInfo {
  Name : string;
  IsDir : bool
}.

(** [*os.File], by its descriptor. *)
Definition File : Type := N.

Inductive Call : Type :=
| Stat (name : string)
| Lstat (name : string)
| MkdirAll (path : string) (perm : N)
| Open (name : string)
| Readdir (f : File) (n : Z)
| Close (f : File).

(** The pair each call returns; [None] is [nil]. *)
Definition Resp (c : Call) : Type :=
  match c with
  | Stat _ | Lstat _ => (option FileInfo * option oserror)%type
  | MkdirAll _ _ => option oserror
  | Open _ => (File * option oserror)%type
  | Readdir _ _ => (list FileInfo * option oserror)%type
  | Close _ => option oserror
  end.

Inductive Prog (A : Type) : Type :=
| Ret (a : A)
| Do (c : Call) (k : Resp c -> Prog A).
Arguments Ret {A} a.
Arguments Do {A} c k.

Fixpoint bind {A B : Type} (p : Prog A) (f : A -> Prog B) : Prog B :=
  match p with
  | Ret a => f a
  | Do c k => Do c (fun r => bind (k r) f)
  end.

#[global] Instance Prog_ret : MRet Prog := fun A a => Ret a.
#[global] Instance Prog_bind : MBind Prog := fun A B f p => bind p f.

Definition call (c : Call) : Prog (Resp c) := Do c Ret.

Record Host : Type := mkHost {
  os_Stat : string -> option FileInfo * option oserror;
  os_Lstat : string -> option FileInfo * option oserror;
  os_MkdirAll : string -> N -> option oserror;
  os_Open : string -> File * option oserror;
  file_Readdir : File -> Z -> list FileInfo * option oserror;
  file_Close : File -> option oserror
}.

Definition answer (h : Host) (c : Call) : Resp c :=
  match c with
  | Stat name => os_Stat h name
  | Lstat name => os_Lstat h name
  | MkdirAll path perm => os_MkdirAll h path perm
  | Open name => os_Open h name
  | Readdir f n => file_Readdir h f n
  | Close f => file_Close h f
  end.

Fixpoint exec {A : Type} (h : Host) (p : Prog A) : A * list Call :=
  match p with
  | Ret a => (a, [])
  | Do c k => let '(a, t) := exec h (k (answer h c)) in (a, c :: t)
  end.

Definition result {A : Type} (h : Host) (p : Prog A) : A := fst (exec h p).
Definition trace {A : Type} (h : Host) (p : Prog A) : list Call := snd (exec h p).

End hostfs.

Definition IsFileExisting (filename : string) : hostfs.Prog bool :=
  '(_, err) ← hostfs.call (hostfs.Stat filename);
  match err with
  | None => mret true
  | Some _ => if hostfs.IsNotExist err then mret false else mret true
  end.

(** The deferred [f.Close()] runs once the result is fixed, before the
    function hands it back. *)
Definition IsDirEmpty (name : string) : hostfs.Prog (bool * option hostfs.oserror) :=
  '(f, err) ← hostfs.call (hostfs.Open name);
  match err with
  | Some _ => mret (false, err)
  | None =>
      '(_, err) ← hostfs.call (hostfs.Readdir f 1);
      let ret := match err with
                 | Some hostfs.EOF => (true, None)
                 | _ => (false, err)
                 end in
      _ ← hostfs.call (hostfs.Close f);
      mret ret
  end.

(** [0777] *)
Definition perm_0777 : N := 511.

Definition createDest (dest : string) : hostfs.Prog (option hostfs.oserror) :=
  '(fi, err) ← hostfs.call (hostfs.Lstat dest);
  let after :=
    match fi with
    | Some info =>
        if negb (hostfs.IsDir info)
        then mret (Some (hostfs.errorString (dest ++ " already exist and it's not a directory")))
        else mret None
    | None => mret None
    end in
  if hostfs.IsNotExist err
  then
    err ← hostfs.call (hostfs.MkdirAll dest perm_0777);
    match err with
    | Some _ => mret err
    | None => after
    end
  else
    match err with
    | Some _ => mret err
    | None => after
    end.

Definition execCommand (command : string) (args : list string) : Prog (string * option error) :=
  call (CombinedOutput command args).

(** A node for the examples: [/mnt/disk] is an empty directory,
    [/mnt/data] a directory with one entry, [/etc/hosts] a regular file,
    [/root/secret] cannot be looked at, and nothing else exists; a
    directory can be made anywhere but under [/proc]. *)
Definition example_host : hostfs.Host :=
  let lookup (op name : string) : option hostfs.FileInfo * option hostfs.oserror :=
    if name =? "/mnt/disk" then (Some (hostfs.mkFileInfo "disk" true), None)
    else if name =? "/mnt/data" then (Some (hostfs.mkFileInfo "data" true), None)
    else if name =? "/etc/hosts" then (Some (hostfs.mkFileInfo "hosts" false), None)
    else if name =? "/root/secret" then (None, Some (hostfs.PathError op name hostfs.EACCES))
    else (None, Some (hostfs.PathError op name hostfs.ENOENT)) in
  hostfs.mkHost
    (lookup "stat")
    (lookup "lstat")
    (fun path _ => if String.prefix "/proc" path
                   then Some (hostfs.PathError "mkdir" path hostfs.EACCES)
                   else None)
    (fun name => if name =? "/mnt/disk" then (3%N, None)
                 else if name =? "/mnt/data" then (4%N, None)
                 else if name =? "/etc/hosts" then (5%N, None)
                 else (0%N, Some (hostfs.PathError "open" name hostfs.ENOENT)))
    (fun f _ => if (f =? 3)%N then ([], Some hostfs.EOF)
                else if (f =? 4)%N then ([hostfs.mkFileInfo "lost+found" true], None)
                else ([], Some (hostfs.PathError "readdirent" "/etc/hosts" hostfs.ENOTDIR)))
    (fun _ => None).

(** [role_world] with a shell whose count carries no line feed, and with
    an ECS SDK whose STS constructor fails. *)
Definition counting_world : World :=
  mkWorld (os_Getenv role_world) (http_Get role_world)
          (metadata_Role role_world) (metadata_RamRoleToken role_world)
          (ecs_NewClientWithAccessKey role_world)
          (fun _ _ _ _ => Failed "InvalidAccessKeyId.NotFound")
          (fun name args =>
             match args with
             | [_; cmd] =>
                 if cmd =? deviceCmd "/mnt/disk"
                 then ("/dev/vdb" ++ LF, None)
                 else if cmd =? deviceNumCmd "/dev/vdb"
                 then ("3", None)
                 else (EmptyString, Some "exit status 1")
             | _ => (EmptyString, Some "exit status 2")
             end).

(** * Properties *)

(** ** Running trees *)

Lemma exec_bind {A B : Type} (w : World) (p : Prog A) (f : A -> Prog B) :
  exec w (p ≫= f) = (result w (f (result w p)), (trace w p ++ trace w (f (result w p)))%list).
Proof.
  unfold result, trace, mbind, Prog_bind.
  induction p as [a | c k IH]; simpl.
  - now destruct (exec w (f a)).
  - rewrite IH. now destruct (exec w (k (answer w c))).
Qed.

Lemma result_bind {A B : Type} (w : World) (p : Prog A) (f : A -> Prog B) :
  result w (p ≫= f) = result w (f (result w p)).
Proof. unfold result at 1. now rewrite exec_bind. Qed.

Lemma trace_bind {A B : Type} (w : World) (p : Prog A) (f : A -> Prog B) :
  trace w (p ≫= f) = (trace w p ++ trace w (f (result w p)))%list.
Proof. unfold trace at 1. now rewrite exec_bind. Qed.

Lemma result_ret {A : Type} (w : World) (a : A) : result w (mret a) = a.
Proof. reflexivity. Qed.

Lemma trace_ret {A : Type} (w : World) (a : A) : trace w (mret a) = [].
Proof. reflexivity. Qed.

Lemma result_call (w : World) (c : Call) : result w (call c) = answer w c.
Proof. reflexivity. Qed.

Lemma trace_call (w : World) (c : Call) : trace w (call c) = [c].
Proof. reflexivity. Qed.

(** Push [result] and [trace] through the binds of a tree. *)
Ltac run_tree :=
  repeat first
    [ rewrite result_bind | rewrite trace_bind
    | rewrite result_ret | rewrite trace_ret
    | match goal with
      | |- context [@result _ ?w (call ?c)] =>
          change (@result _ w (call c)) with (answer w c)
      | |- context [@trace _ ?w (call ?c)] =>
          change (@trace _ w (call c)) with [c]
      end ];
  simpl answer.

(** ** The environment lookup *)

Lemma either_empty (id secret : string) :
  (id =? "") || (secret =? "") = true ↔ id = "" ∨ secret = "".
Proof. now rewrite orb_true_iff, !String.eqb_eq. Qed.

Lemma both_set (id secret : string) :
  (id =? "") || (secret =? "") = false ↔ id ≠ "" ∧ secret ≠ "".
Proof. now rewrite orb_false_iff, !String.eqb_neq. Qed.

Lemma GetLocalAK_result (w : World) :
  result w GetLocalAK = (os_Getenv w "ACCESS_KEY_ID", os_Getenv w "ACCESS_KEY_SECRET").
Proof.
  unfold GetLocalAK. run_tree.
  now destruct (negb _ && negb _).
Qed.

Lemma GetLocalAK_trace (w : World) :
  trace w GetLocalAK = [Getenv "ACCESS_KEY_ID"; Getenv "ACCESS_KEY_SECRET"].
Proof.
  unfold GetLocalAK. run_tree.
  now destruct (negb _ && negb _).
Qed.

Lemma GetDefaultAK_result (w : World) :
  result w GetDefaultAK =
  if (os_Getenv w "ACCESS_KEY_ID" =? "") || (os_Getenv w "ACCESS_KEY_SECRET" =? "")
  then result w GetSTSAK
  else (os_Getenv w "ACCESS_KEY_ID", os_Getenv w "ACCESS_KEY_SECRET", "").
Proof.
  unfold GetDefaultAK. rewrite result_bind, GetLocalAK_result.
  now destruct (_ || _).
Qed.

Lemma GetDefaultAK_trace (w : World) :
  trace w GetDefaultAK =
  ([Getenv "ACCESS_KEY_ID"; Getenv "ACCESS_KEY_SECRET"]
   ++ (if (os_Getenv w "ACCESS_KEY_ID" =? "") || (os_Getenv w "ACCESS_KEY_SECRET" =? "")
       then trace w GetSTSAK else []))%list.
Proof.
  unfold GetDefaultAK. rewrite trace_bind, GetLocalAK_result, GetLocalAK_trace.
  now destruct (_ || _).
Qed.

Lemma GetSTSAK_result (w : World) :
  result w GetSTSAK =
  match metadata_Role w with
  | Failed _ => ("", "", "")
  | Done rolename =>
      match metadata_RamRoleToken w rolename with
      | Failed _ => ("", "", "")
      | Done role => (AccessKeyId role, AccessKeySecret role, SecurityToken role)
      end
  end.
Proof.
  unfold GetSTSAK. run_tree.
  destruct (metadata_Role w) as [rolename | e]; [| reflexivity].
  run_tree. now destruct (metadata_RamRoleToken w rolename).
Qed.

Lemma GetSTSAK_trace (w : World) :
  trace w GetSTSAK =
  match metadata_Role w with
  | Failed _ => [MetaRole]
  | Done rolename => [MetaRole; MetaRamRoleToken rolename]
  end.
Proof.
  unfold GetSTSAK. run_tree.
  destruct (metadata_Role w) as [rolename | e]; [| reflexivity].
  run_tree. now destruct (metadata_RamRoleToken w rolename).
Qed.

(** ** Credential resolution *)

(** C1.  When both [ACCESS_KEY_ID] and [ACCESS_KEY_SECRET] are set to
    non-empty strings, [GetDefaultAK] returns those two values with an
    empty session token, and the only calls it makes are the two
    environment reads: the metadata service is not asked.  When either
    variable is empty it returns what [GetSTSAK] returns, after the two
    environment reads. *)
Theorem GetDefaultAK_prefers_environment (w : World) :
  (os_Getenv w "ACCESS_KEY_ID" ≠ "" → os_Getenv w "ACCESS_KEY_SECRET" ≠ "" →
     result w GetDefaultAK
       = (os_Getenv w "ACCESS_KEY_ID", os_Getenv w "ACCESS_KEY_SECRET", "")
     ∧ trace w GetDefaultAK = [Getenv "ACCESS_KEY_ID"; Getenv "ACCESS_KEY_SECRET"])
  ∧ (os_Getenv w "ACCESS_KEY_ID" = "" ∨ os_Getenv w "ACCESS_KEY_SECRET" = "" →
     result w GetDefaultAK = result w GetSTSAK
     ∧ trace w GetDefaultAK
       = ([Getenv "ACCESS_KEY_ID"; Getenv "ACCESS_KEY_SECRET"] ++ trace w GetSTSAK)%list).
Proof.
  rewrite GetDefaultAK_result, GetDefaultAK_trace. split.
  - intros Hid Hsecret.
    rewrite (proj2 (both_set _ _) (conj Hid Hsecret)). now split.
  - intros Hempty.
    rewrite (proj2 (either_empty _ _) Hempty). now split.
Qed.

Lemma GetDefaultAK_prefers_environment_witness :
  (result static_key_world GetDefaultAK = ("LTAIstatic", "s3cr3t", "")
   ∧ trace static_key_world GetDefaultAK
     = [Getenv "ACCESS_KEY_ID"; Getenv "ACCESS_KEY_SECRET"])
  ∧ (result role_world GetDefaultAK = ("STS.id", "STS.secret", "STS.token")
     ∧ trace role_world GetDefaultAK
       = [Getenv "ACCESS_KEY_ID"; Getenv "ACCESS_KEY_SECRET";
          MetaRole; MetaRamRoleToken "csi-role"]).
Proof.
  split.
  - apply (proj1 (GetDefaultAK_prefers_environment static_key_world)); discriminate.
  - apply (proj2 (GetDefaultAK_prefers_environment role_world)). left. reflexivity.
Defined.

(** C7.  [GetDefaultAK] has no error result and always returns: in every
    world it hands back a triple of strings after at most four calls, and
    when the environment gives no usable pair and the STS chain fails the
    triple is three empty strings. *)
Theorem GetDefaultAK_never_fails (w : World) :
  (∃ id secret token : string, result w GetDefaultAK = (id, secret, token))
  ∧ (length (trace w GetDefaultAK) ≤ 4)%nat
  ∧ (os_Getenv w "ACCESS_KEY_ID" = "" ∨ os_Getenv w "ACCESS_KEY_SECRET" = "" →
     sts_fails w →
     result w GetDefaultAK = ("", "", "")).
Proof.
  split; [| split].
  - destruct (result w GetDefaultAK) as [[id secret] token]. now exists id, secret, token.
  - rewrite GetDefaultAK_trace, GetSTSAK_trace.
    destruct (_ || _); [destruct (metadata_Role w) |]; simpl; lia.
  - intros Hempty Hsts.
    rewrite GetDefaultAK_result, GetSTSAK_result, (proj2 (either_empty _ _) Hempty).
    unfold sts_fails in Hsts.
    destruct (metadata_Role w) as [rolename | e]; [| reflexivity].
    now destruct (metadata_RamRoleToken w rolename).
Qed.

Lemma GetDefaultAK_never_fails_witness :
  result bare_world GetDefaultAK = ("", "", "").
Proof.
  apply (proj2 (proj2 (GetDefaultAK_never_fails bare_world))).
  - left. reflexivity.
  - exact I.
Defined.

(** ** The ECS client wrapper *)

Lemma newEcsClient_with_token (w : World) (id secret token : string) :
  token ≠ "" →
  exec w (newEcsClient id secret token)
  = (match ecs_NewClientWithStsToken w DEFAULT_REGION id secret token with
     | Done c => c
     | Failed _ => None
     end,
     [NewClientWithStsToken DEFAULT_REGION id secret token]).
Proof.
  intros Htoken. unfold newEcsClient.
  rewrite (proj2 (String.eqb_neq _ _) Htoken). simpl.
  now destruct (ecs_NewClientWithStsToken w DEFAULT_REGION id secret token).
Qed.

(** C4, as written, fails: in [counting_world] the credentials carry the
    session token [STS.token], yet [updateEcsClent], given the client
    [Some 7], returns nil and no new client: the STS constructor of the SDK
    failed, [newEcsClient] turned that into nil, and nil is handed on. *)
Lemma updateEcsClent_failed_rebuild_counterexample :
  result counting_world GetDefaultAK = ("STS.id", "STS.secret", "STS.token")
  ∧ result counting_world (updateEcsClent (Some 7%N)) = None
  ∧ ¬ (∀ (w : World) (client : ecsClient),
         snd (result w GetDefaultAK) ≠ "" →
         ∃ built, result w (updateEcsClent client) = Some built).
Proof.
  split; [reflexivity |]. split; [reflexivity |].
  intros Hclaim.
  destruct (Hclaim counting_world (Some 7%N)) as [built Hbuilt]; [discriminate |].
  discriminate Hbuilt.
Qed.

(** C4, amended.  [updateEcsClent] resolves the credentials and calls the
    STS constructor of the SDK, once and with those credentials, exactly
    when they carry a session token.  It then returns what that
    constructor built, or nil when the constructor failed; the client it
    was given is dropped either way.  When the token is empty it returns
    the client it was given and calls no constructor. *)
Theorem updateEcsClent_refreshes_iff_token (w : World) (client : ecsClient) :
  let '(id, secret, token) := result w GetDefaultAK in
  (token ≠ "" →
     result w (updateEcsClent client)
     = match ecs_NewClientWithStsToken w DEFAULT_REGION id secret token with
       | Done built => built
       | Failed _ => None
       end
     ∧ trace w (updateEcsClent client)
       = (trace w GetDefaultAK ++ [NewClientWithStsToken DEFAULT_REGION id secret token])%list)
  ∧ (token = "" →
     result w (updateEcsClent client) = client
     ∧ trace w (updateEcsClent client) = trace w GetDefaultAK)
  ∧ (existsb builds_client (trace w (updateEcsClent client)) = negb (token =? "")).
Proof.
  assert (Hcreds : existsb builds_client (trace w GetDefaultAK) = false).
  { rewrite GetDefaultAK_trace, GetSTSAK_trace.
    destruct (_ || _); [destruct (metadata_Role w) |]; reflexivity. }
  unfold updateEcsClent. rewrite result_bind, trace_bind.
  destruct (result w GetDefaultAK) as [[id secret] token].
  split; [| split].
  - intros Htoken. rewrite (proj2 (String.eqb_neq _ _) Htoken). simpl negb. cbv iota.
    unfold result at 1, trace at 2. now rewrite newEcsClient_with_token.
  - intros ->. simpl. split; [reflexivity | apply app_nil_r].
  - rewrite existsb_app, Hcreds. simpl orb.
    destruct (token =? "") eqn:Htoken; simpl negb; cbv iota.
    + reflexivity.
    + apply String.eqb_neq in Htoken.
      unfold trace. now rewrite newEcsClient_with_token.
Qed.

Lemma updateEcsClent_refreshes_iff_token_witness :
  (result role_world (updateEcsClent (Some 7%N)) = Some 2%N
   ∧ trace role_world (updateEcsClent (Some 7%N))
     = [Getenv "ACCESS_KEY_ID"; Getenv "ACCESS_KEY_SECRET"; MetaRole;
        MetaRamRoleToken "csi-role";
        NewClientWithStsToken "cn-hangzhou" "STS.id" "STS.secret" "STS.token"])
  ∧ (result counting_world (updateEcsClent (Some 7%N)) = None
     ∧ trace counting_world (updateEcsClent (Some 7%N))
       = [Getenv "ACCESS_KEY_ID"; Getenv "ACCESS_KEY_SECRET"; MetaRole;
          MetaRamRoleToken "csi-role";
          NewClientWithStsToken "cn-hangzhou" "STS.id" "STS.secret" "STS.token"])
  ∧ (result static_key_world (updateEcsClent (Some 7%N)) = Some 7%N
     ∧ trace static_key_world (updateEcsClent (Some 7%N))
       = [Getenv "ACCESS_KEY_ID"; Getenv "ACCESS_KEY_SECRET"]).
Proof.
  split; [| split].
  - apply (proj1 (updateEcsClent_refreshes_iff_token role_world (Some 7%N))).
    discriminate.
  - apply (proj1 (updateEcsClent_refreshes_iff_token counting_world (Some 7%N))).
    discriminate.
  - apply (proj1 (proj2 (updateEcsClent_refreshes_iff_token static_key_world (Some 7%N)))).
    reflexivity.
Defined.

(** ** Instance metadata *)

Lemma GetMetaData_exec (w : World) (resource : string) :
  exec w (GetMetaData resource)
  = (match http_Get w (METADATA_URL ++ resource) with
     | Failed _ => ""
     | Done resp => match ReadAll resp with
                    | Failed _ => ""
                    | Done body => body
                    end
     end,
     [HttpGet (METADATA_URL ++ resource)]).
Proof.
  unfold GetMetaData. simpl.
  destruct (http_Get w (METADATA_URL ++ resource)) as [resp | e]; [| reflexivity].
  now destruct (ReadAll resp).
Qed.

(** C3, as written, fails: the metadata service of [role_world] answers
    the resource [instance-id] with status 404 and the body
    [404 - Not Found]; [GetMetaData] returns that body, not the empty
    string. *)
Lemma GetMetaData_non_200_counterexample :
  result role_world (GetMetaData "instance-id") = "404 - Not Found"
  ∧ ¬ (∀ (w : World) (resource : string) (resp : Response),
         http_Get w (METADATA_URL ++ resource) = Done resp →
         StatusCode resp ≠ 200%Z →
         result w (GetMetaData resource) = "").
Proof.
  split; [reflexivity |].
  intros Hclaim.
  specialize (Hclaim role_world "instance-id" (mkResponse 404 (Done "404 - Not Found")) eq_refl).
  simpl in Hclaim.
  assert (Hempty : result role_world (GetMetaData "instance-id") = "") by (apply Hclaim; lia).
  discriminate Hempty.
Qed.

(** C3, amended.  [GetMetaData] makes one GET of the metadata URL followed
    by the resource name.  It returns the empty string when the GET fails
    at the network level or when reading the body fails, and otherwise the
    body it read, whatever the status of the response: the status is never
    looked at. *)
Theorem GetMetaData_body_or_empty (w : World) (resource : string) :
  trace w (GetMetaData resource) = [HttpGet (METADATA_URL ++ resource)]
  ∧ (∀ e, http_Get w (METADATA_URL ++ resource) = Failed e →
          result w (GetMetaData resource) = "")
  ∧ (∀ resp e, http_Get w (METADATA_URL ++ resource) = Done resp →
               ReadAll resp = Failed e →
               result w (GetMetaData resource) = "")
  ∧ (∀ resp body, http_Get w (METADATA_URL ++ resource) = Done resp →
                  ReadAll resp = Done body →
                  result w (GetMetaData resource) = body).
Proof.
  unfold result, trace. rewrite GetMetaData_exec. simpl.
  split; [reflexivity |].
  split; [| split].
  - now intros e ->.
  - now intros resp e -> ->.
  - now intros resp body -> ->.
Qed.

Lemma GetMetaData_body_or_empty_witness :
  result bare_world (GetMetaData "zone-id") = ""
  ∧ result role_world (GetMetaData "zone-id") = "cn-hangzhou-b"
  ∧ result role_world (GetMetaData "instance-id") = "404 - Not Found".
Proof.
  split; [| split].
  - apply (proj1 (proj2 (GetMetaData_body_or_empty bare_world "zone-id"))
             "dial tcp 100.100.100.200:80: i/o timeout").
    reflexivity.
  - apply (proj2 (proj2 (proj2 (GetMetaData_body_or_empty role_world "zone-id")))
             (mkResponse 200 (Done "cn-hangzhou-b"))); reflexivity.
  - apply (proj2 (proj2 (proj2 (GetMetaData_body_or_empty role_world "instance-id")))
             (mkResponse 404 (Done "404 - Not Found"))); reflexivity.
Defined.

(** ** Counting the mounts of a device *)

Lemma run_exec (w : World) (cmd : string) :
  exec w (run cmd)
  = (match exec_CombinedOutput w "sh" ["-c"; cmd] with
     | (out, Some e) =>
         (EmptyString,
          Some ("Failed to run cmd: " ++ cmd ++ ", with out: " ++ out ++ ", error: " ++ e ++ " "))
     | (out, None) => (out, None)
     end,
     [CombinedOutput "sh" ["-c"; cmd]]).
Proof.
  unfold run. simpl.
  now destruct (exec_CombinedOutput w "sh" ["-c"; cmd]) as [out [e |]].
Qed.

Lemma run_result (w : World) (cmd : string) :
  result w (run cmd)
  = match exec_CombinedOutput w "sh" ["-c"; cmd] with
    | (out, Some e) =>
        (EmptyString,
         Some ("Failed to run cmd: " ++ cmd ++ ", with out: " ++ out ++ ", error: " ++ e ++ " "))
    | (out, None) => (out, None)
    end.
Proof. unfold result. now rewrite run_exec. Qed.

Lemma run_trace (w : World) (cmd : string) :
  trace w (run cmd) = [CombinedOutput "sh" ["-c"; cmd]].
Proof. unfold trace. now rewrite run_exec. Qed.

(** C10.  [GetDeviceMountNum] returns a plain integer and has no error
    result.  It returns 0 when the first shell command fails, when the
    second fails, and when the output of the second is not an integer for
    [strconv.Atoi]; only when both commands succeed and the count parses
    does it return the count, which may itself be 0. *)
Theorem GetDeviceMountNum_zero_on_failure (w : World) (targetPath : string) :
  let sh := fun cmd => exec_CombinedOutput w "sh" ["-c"; cmd] in
  (∀ out e, sh (deviceCmd targetPath) = (out, Some e) →
            result w (GetDeviceMountNum targetPath) = 0%Z)
  ∧ (∀ device out e,
       sh (deviceCmd targetPath) = (device, None) →
       sh (deviceNumCmd (strings.TrimSuffix device LF)) = (out, Some e) →
       result w (GetDeviceMountNum targetPath) = 0%Z)
  ∧ (∀ device count e,
       sh (deviceCmd targetPath) = (device, None) →
       sh (deviceNumCmd (strings.TrimSuffix device LF)) = (count, None) →
       strconv.Atoi count = Failed e →
       result w (GetDeviceMountNum targetPath) = 0%Z)
  ∧ (∀ device count num,
       sh (deviceCmd targetPath) = (device, None) →
       sh (deviceNumCmd (strings.TrimSuffix device LF)) = (count, None) →
       strconv.Atoi count = Done num →
       result w (GetDeviceMountNum targetPath) = num).
Proof.
  intros sh. subst sh. unfold GetDeviceMountNum.
  rewrite result_bind, run_result.
  split; [| split; [| split]].
  - now intros out e ->.
  - intros device out e -> Hsecond.
    rewrite result_bind, run_result, Hsecond. reflexivity.
  - intros device count e -> Hsecond Hparse.
    rewrite result_bind, run_result, Hsecond. cbv beta iota.
    now rewrite Hparse.
  - intros device count num -> Hsecond Hparse.
    rewrite result_bind, run_result, Hsecond. cbv beta iota.
    now rewrite Hparse.
Qed.

Lemma GetDeviceMountNum_zero_on_failure_witness :
  result bare_world (GetDeviceMountNum "/mnt/disk") = 0%Z
  ∧ result role_world (GetDeviceMountNum "/mnt/disk") = 0%Z.
Proof.
  split.
  - apply (proj1 (GetDeviceMountNum_zero_on_failure bare_world "/mnt/disk")
             EmptyString "exit status 127").
    reflexivity.
  - apply (proj1 (proj2 (proj2 (GetDeviceMountNum_zero_on_failure role_world "/mnt/disk")))
             ("/dev/vdb" ++ LF) ("3" ++ LF) strconv.ErrSyntax); reflexivity.
Defined.

(** ** The volume option parser *)

Section ParserProperties.
Context {U : strings.UnicodeTables} {F : fmt.Formatter}.

(** What the parser returns, with the two metadata lookups named. *)
Lemma getDiskVolumeOptions_result (w : World) (opts : gmap string string) :
  result w (getDiskVolumeOptions opts)
  = let fsType := default "ext4" (opts !! "fsType") in
    let type := default DISK_HIGH_AVAIL (opts !! "type") in
    if negb (fsType =? "ext4") && negb (fsType =? "ext3")
    then (None, Some (fmt.Errorf "illegal required parameter fsType"))
    else if negb (type =? DISK_HIGH_AVAIL) && negb (type =? DISK_COMMON)
            && negb (type =? DISK_EFFICIENCY) && negb (type =? DISK_SSD)
    then (None, Some (fmt.Errorf ("Illegal required parameter type" ++ type)))
    else (Some (mkDiskVolumeArgs
                  (default (result w (GetMetaData ZONEID_TAG)) (opts !! "zoneId"))
                  (default (result w (GetMetaData REGIONID_TAG)) (opts !! "regionId"))
                  fsType type
                  (from_option truthy false (opts !! "readOnly"))
                  (from_option truthy false (opts !! "encrypted"))),
          None).
Proof.
  unfold getDiskVolumeOptions. rewrite !result_bind.
  destruct (opts !! "zoneId") as [zone |], (opts !! "regionId") as [region |],
    (opts !! "fsType") as [fs |], (opts !! "type") as [ty |],
    (opts !! "readOnly") as [ro |], (opts !! "encrypted") as [en |];
    simpl default; simpl from_option; cbv zeta;
    repeat match goal with
           | |- context [if ?b then _ else _] => destruct b
           end;
    reflexivity.
Qed.

(** The parser asks the metadata service for the zone when the caller
    gives none, then for the region when the caller gives none, and asks
    nothing else. *)
Lemma getDiskVolumeOptions_trace (w : World) (opts : gmap string string) :
  trace w (getDiskVolumeOptions opts)
  = ((if opts !! "zoneId" is Some _ then [] else [HttpGet (METADATA_URL ++ ZONEID_TAG)])
     ++ (if opts !! "regionId" is Some _ then [] else [HttpGet (METADATA_URL ++ REGIONID_TAG)]))%list.
Proof.
  unfold getDiskVolumeOptions. rewrite !trace_bind.
  assert (Hzone : ∀ o : option string,
             trace w (match o with Some v => mret v | None => GetMetaData ZONEID_TAG end)
             = if o is Some _ then [] else [HttpGet (METADATA_URL ++ ZONEID_TAG)]).
  { intros [v |]; [reflexivity |]. unfold trace. now rewrite GetMetaData_exec. }
  assert (Hregion : ∀ o : option string,
             trace w (match o with Some v => mret v | None => GetMetaData REGIONID_TAG end)
             = if o is Some _ then [] else [HttpGet (METADATA_URL ++ REGIONID_TAG)]).
  { intros [v |]; [reflexivity |]. unfold trace. now rewrite GetMetaData_exec. }
  rewrite Hzone, Hregion.
  repeat match goal with
         | |- context [trace w (if ?b then _ else _)] => destruct b
         end;
    rewrite trace_ret, !app_nil_r; reflexivity.
Qed.

End ParserProperties.

(** C2.  An options map whose [fsType] is present and is neither [ext3]
    nor [ext4], or whose [type] is present and is none of [available],
    [cloud], [cloud_efficiency], [cloud_ssd], makes [getDiskVolumeOptions]
    return a nil request together with a non-nil error. *)
Theorem getDiskVolumeOptions_rejects {U : strings.UnicodeTables} {F : fmt.Formatter}
    (w : World) (opts : gmap string string) :
  (∃ v, opts !! "fsType" = Some v ∧ v ≠ "ext3" ∧ v ≠ "ext4")
  ∨ (∃ v, opts !! "type" = Some v
          ∧ v ≠ DISK_HIGH_AVAIL ∧ v ≠ DISK_COMMON ∧ v ≠ DISK_EFFICIENCY ∧ v ≠ DISK_SSD) →
  ∃ e : error, result w (getDiskVolumeOptions opts) = (None, Some e).
Proof.
  intros Hbad. rewrite getDiskVolumeOptions_result. cbv zeta.
  destruct Hbad as [(v & -> & Hext3 & Hext4) | (v & -> & Ha & Hc & He & Hs)]; simpl default.
  - apply String.eqb_neq in Hext3, Hext4. rewrite Hext3, Hext4. simpl. eauto.
  - apply String.eqb_neq in Ha, Hc, He, Hs. rewrite Ha, Hc, He, Hs. simpl.
    destruct (negb _ && negb _); eauto.
Qed.

Lemma getDiskVolumeOptions_rejects_witness :
  (∃ e : error,
     result bare_world (getDiskVolumeOptions (U := ascii_only) (F := plain_formats) (<["fsType" := "xfs"]> ∅))
     = (None, Some e))
  ∧ (∃ e : error,
       result role_world (getDiskVolumeOptions (U := ascii_only) (F := plain_formats) (<["type" := "cloud_unknown"]> ∅))
       = (None, Some e)).
Proof.
  split.
  - apply (getDiskVolumeOptions_rejects (U := ascii_only) (F := plain_formats)).
    left. exists "xfs". repeat split; discriminate.
  - apply (getDiskVolumeOptions_rejects (U := ascii_only) (F := plain_formats)).
    right. exists "cloud_unknown". repeat split; discriminate.
Defined.

(** C5, as written, fails: on [bare_world], where the metadata service
    cannot be reached, the empty options map is accepted and the request
    it yields has an empty zone and an empty region. *)
Lemma getDiskVolumeOptions_empty_zone_counterexample :
  result bare_world (getDiskVolumeOptions (U := ascii_only) (F := plain_formats) ∅)
  = (Some (mkDiskVolumeArgs "" "" "ext4" "available" false false), None)
  ∧ ¬ (∀ (w : World) (opts : gmap string string) (a : diskVolumeArgs),
         result w (getDiskVolumeOptions (U := ascii_only) (F := plain_formats) opts) = (Some a, None) →
         ZoneId a ≠ "" ∧ RegionId a ≠ "").
Proof.
  assert (Hparse : result bare_world (getDiskVolumeOptions (U := ascii_only) (F := plain_formats) ∅)
                   = (Some (mkDiskVolumeArgs "" "" "ext4" "available" false false), None))
    by reflexivity.
  split; [exact Hparse |].
  intros Hclaim.
  destruct (Hclaim bare_world ∅ _ Hparse) as [Hzone _].
  now apply Hzone.
Qed.

(** C5, amended.  In every successful parse the zone of the request is the
    caller's [zoneId] when that key is present and otherwise what
    [GetMetaData] returns for [zone-id], and likewise the region with
    [regionId] and [region-id]; so a field is non-empty whenever the value
    it was taken from, the caller's or the metadata service's, is
    non-empty. *)
Theorem getDiskVolumeOptions_zone_region {U : strings.UnicodeTables} {F : fmt.Formatter}
    (w : World) (opts : gmap string string) (a : diskVolumeArgs) :
  result w (getDiskVolumeOptions opts) = (Some a, None) →
  ZoneId a = default (result w (GetMetaData ZONEID_TAG)) (opts !! "zoneId")
  ∧ RegionId a = default (result w (GetMetaData REGIONID_TAG)) (opts !! "regionId")
  ∧ (default (result w (GetMetaData ZONEID_TAG)) (opts !! "zoneId") ≠ "" → ZoneId a ≠ "")
  ∧ (default (result w (GetMetaData REGIONID_TAG)) (opts !! "regionId") ≠ "" → RegionId a ≠ "").
Proof.
  rewrite getDiskVolumeOptions_result. cbv zeta.
  destruct (negb _ && negb _); [discriminate |].
  destruct (negb _ && negb _ && negb _ && negb _); [discriminate |].
  intros [= <-]. simpl. auto.
Qed.

Lemma getDiskVolumeOptions_zone_region_witness :
  let opts : gmap string string := <["regionId" := "cn-beijing"]> ∅ in
  let a := mkDiskVolumeArgs "cn-hangzhou-b" "cn-beijing" "ext4" "available" false false in
  result role_world (getDiskVolumeOptions (U := ascii_only) (F := plain_formats) opts) = (Some a, None)
  ∧ ZoneId a = result role_world (GetMetaData ZONEID_TAG)
  ∧ RegionId a = "cn-beijing".
Proof.
  intros opts a.
  assert (Hparse : result role_world (getDiskVolumeOptions (U := ascii_only) (F := plain_formats) opts)
                   = (Some a, None)) by reflexivity.
  split; [exact Hparse |].
  destruct (getDiskVolumeOptions_zone_region (U := ascii_only) (F := plain_formats) role_world opts a Hparse)
    as (Hzone & Hregion & _).
  split; [exact Hzone | exact Hregion].
Defined.

Lemma truthy_spec {U : strings.UnicodeTables} (value : string) :
  truthy value = true
  ↔ strings.ToLower value = "yes" ∨ strings.ToLower value = "true"
    ∨ strings.ToLower value = "1".
Proof.
  unfold truthy. cbv zeta. rewrite !orb_true_iff, !String.eqb_eq. tauto.
Qed.

Lemma getDiskVolumeOptions_error_only_fs_and_type {U : strings.UnicodeTables} {F : fmt.Formatter}
    (w : World) (opts opts' : gmap string string) :
  opts' !! "fsType" = opts !! "fsType" →
  opts' !! "type" = opts !! "type" →
  snd (result w (getDiskVolumeOptions opts')) = snd (result w (getDiskVolumeOptions opts)).
Proof.
  intros Hfs Hty. rewrite !getDiskVolumeOptions_result, Hfs, Hty. cbv zeta.
  destruct (negb _ && negb _); [reflexivity |].
  now destruct (negb _ && negb _ && negb _ && negb _).
Qed.

(** C6.  In every request the parser returns, [ReadOnly] is true exactly
    when the key [readOnly] is present and its value, put in lower case by
    [strings.ToLower], is [yes], [true] or [1]; the same holds for
    [Encrypted] and the key [encrypted].  Whatever value either key is
    given, the error the parser returns is the one it returns without that
    change: these two fields never make the parse fail. *)
Theorem getDiskVolumeOptions_boolean_fields {U : strings.UnicodeTables} {F : fmt.Formatter}
    (w : World) (opts : gmap string string) :
  (∀ a e, result w (getDiskVolumeOptions opts) = (Some a, e) →
     (ReadOnly a = true
      ↔ ∃ v, opts !! "readOnly" = Some v
             ∧ (strings.ToLower v = "yes" ∨ strings.ToLower v = "true"
                ∨ strings.ToLower v = "1"))
     ∧ (Encrypted a = true
        ↔ ∃ v, opts !! "encrypted" = Some v
               ∧ (strings.ToLower v = "yes" ∨ strings.ToLower v = "true"
                  ∨ strings.ToLower v = "1")))
  ∧ (∀ v, snd (result w (getDiskVolumeOptions (<["readOnly" := v]> opts)))
          = snd (result w (getDiskVolumeOptions opts)))
  ∧ (∀ v, snd (result w (getDiskVolumeOptions (<["encrypted" := v]> opts)))
          = snd (result w (getDiskVolumeOptions opts))).
Proof.
  split; [| split].
  - intros a e. rewrite getDiskVolumeOptions_result. cbv zeta.
    destruct (negb _ && negb _); [discriminate |].
    destruct (negb _ && negb _ && negb _ && negb _); [discriminate |].
    intros [= <- _]. simpl ReadOnly. simpl Encrypted.
    split.
    + destruct (opts !! "readOnly") as [v |]; simpl.
      * rewrite truthy_spec. split; [eauto | now intros (v' & [= <-] & Hv)].
      * split; [discriminate | now intros (v' & [=] & _)].
    + destruct (opts !! "encrypted") as [v |]; simpl.
      * rewrite truthy_spec. split; [eauto | now intros (v' & [= <-] & Hv)].
      * split; [discriminate | now intros (v' & [=] & _)].
  - intros v. apply getDiskVolumeOptions_error_only_fs_and_type;
      now rewrite lookup_insert_ne.
  - intros v. apply getDiskVolumeOptions_error_only_fs_and_type;
      now rewrite lookup_insert_ne.
Qed.

Lemma getDiskVolumeOptions_boolean_fields_witness :
  let opts : gmap string string :=
    <["readOnly" := "YES"]> (<["encrypted" := "on"]> (<["zoneId" := "cn-hangzhou-b"]> ∅)) in
  let a := mkDiskVolumeArgs "cn-hangzhou-b" "" "ext4" "available" true false in
  result bare_world (getDiskVolumeOptions (U := ascii_only) (F := plain_formats) opts) = (Some a, None)
  ∧ (∃ v, opts !! "readOnly" = Some v
          ∧ (strings.ToLower (U := ascii_only) v = "yes"
             ∨ strings.ToLower (U := ascii_only) v = "true"
             ∨ strings.ToLower (U := ascii_only) v = "1")).
Proof.
  intros opts a.
  assert (Hparse : result bare_world (getDiskVolumeOptions (U := ascii_only) (F := plain_formats) opts)
                   = (Some a, None)) by reflexivity.
  split; [exact Hparse |].
  apply (proj1 (getDiskVolumeOptions_boolean_fields (U := ascii_only) (F := plain_formats) bare_world opts)
           a None Hparse).
  reflexivity.
Defined.

(** ** Parsing the canonical output *)

Lemma truthy_canonicalBool {U : strings.UnicodeTables} (b : bool) :
  truthy (canonicalBool b) = b.
Proof. now destruct b. Qed.

Lemma canonicalOptions_lookup (a : diskVolumeArgs) :
  canonicalOptions a !! "zoneId" = Some (ZoneId a)
  ∧ canonicalOptions a !! "regionId" = Some (RegionId a)
  ∧ canonicalOptions a !! "fsType" = Some (FsType a)
  ∧ canonicalOptions a !! "type" = Some (Type_ a)
  ∧ canonicalOptions a !! "readOnly" = Some (canonicalBool (ReadOnly a))
  ∧ canonicalOptions a !! "encrypted" = Some (canonicalBool (Encrypted a)).
Proof. unfold canonicalOptions. repeat split; now simplify_map_eq. Qed.

(** C8.  When the parser accepts an options map and returns a request,
    writing that request back as an options map (the six keys, booleans as
    [true] and [false]) and parsing it again, in any world, returns the
    same request with no error, and asks the metadata service nothing. *)
Theorem getDiskVolumeOptions_idempotent {U : strings.UnicodeTables} {F : fmt.Formatter}
    (w w' : World) (opts : gmap string string) (a : diskVolumeArgs) :
  result w (getDiskVolumeOptions opts) = (Some a, None) →
  result w' (getDiskVolumeOptions (canonicalOptions a)) = (Some a, None)
  ∧ trace w' (getDiskVolumeOptions (canonicalOptions a)) = [].
Proof.
  intros Hparse.
  destruct (canonicalOptions_lookup a) as (Hzone & Hregion & Hfs & Hty & Hro & Hen).
  split.
  - rewrite getDiskVolumeOptions_result in Hparse |- *. cbv zeta in Hparse |- *.
    rewrite Hzone, Hregion, Hfs, Hty, Hro, Hen. simpl default. simpl from_option.
    rewrite !truthy_canonicalBool.
    destruct (negb _ && negb _) eqn:Hfsok in Hparse; [discriminate |].
    destruct (negb _ && negb _ && negb _ && negb _) eqn:Htyok in Hparse; [discriminate |].
    injection Hparse as <-. simpl FsType. simpl Type_.
    rewrite Hfsok, Htyok. reflexivity.
  - rewrite getDiskVolumeOptions_trace, Hzone, Hregion. reflexivity.
Qed.

Lemma getDiskVolumeOptions_idempotent_witness :
  let opts : gmap string string :=
    <["readOnly" := "YES"]> (<["type" := "cloud_ssd"]> (<["fsType" := "ext3"]> ∅)) in
  let a := mkDiskVolumeArgs "cn-hangzhou-b" "cn-hangzhou" "ext3" "cloud_ssd" true false in
  result role_world (getDiskVolumeOptions (U := ascii_only) (F := plain_formats) opts) = (Some a, None)
  ∧ result bare_world (getDiskVolumeOptions (U := ascii_only) (F := plain_formats) (canonicalOptions a))
    = (Some a, None).
Proof.
  intros opts a.
  assert (Hparse : result role_world (getDiskVolumeOptions (U := ascii_only) (F := plain_formats) opts)
                   = (Some a, None)) by reflexivity.
  split; [exact Hparse |].
  apply (getDiskVolumeOptions_idempotent (U := ascii_only) (F := plain_formats) role_world bare_world opts a Hparse).
Defined.

(** The count [wc -l] prints ends with a line feed, and the second
    [TrimSuffix] of the function is applied to the device name again, not
    to the count: [strconv.Atoi] rejects such a count, so the function
    returns 0 for it. *)
Lemma digits_rejects_trailing_LF (s : string) (acc : Z) :
  strconv.digits (s ++ LF) acc = None.
Proof.
  revert acc. induction s as [| c r IH]; intros acc; [reflexivity |].
  change (String c r ++ LF) with (String c (r ++ LF)). simpl.
  destruct (strconv.digit c); [apply IH | reflexivity].
Qed.

Lemma Atoi_rejects_trailing_LF (s : string) :
  strconv.Atoi (s ++ LF) = Failed strconv.ErrSyntax.
Proof.
  destruct s as [| c r]; [reflexivity |].
  change (String c r ++ LF) with (String c (r ++ LF)).
  unfold strconv.Atoi.
  destruct (Ascii.eqb c "-" || Ascii.eqb c "+")%char.
  - rewrite digits_rejects_trailing_LF. now destruct (r ++ LF).
  - now rewrite (digits_rejects_trailing_LF (String c r)).
Qed.

Lemma GetDeviceMountNum_count_with_LF (w : World) (targetPath device count : string) :
  exec_CombinedOutput w "sh" ["-c"; deviceCmd targetPath] = (device, None) →
  exec_CombinedOutput w "sh" ["-c"; deviceNumCmd (strings.TrimSuffix device LF)]
  = (count ++ LF, None) →
  result w (GetDeviceMountNum targetPath) = 0%Z.
Proof.
  intros Hfirst Hsecond. unfold GetDeviceMountNum.
  rewrite result_bind, run_result, Hfirst. cbv beta iota.
  rewrite result_bind, run_result, Hsecond. cbv beta iota.
  now rewrite Atoi_rejects_trailing_LF.
Qed.

(** ** No question is asked twice

    In one run every function of the file makes pairwise different calls,
    which is what lets a [World] give one answer per question. *)

Lemma last_byte_app (s t : string) :
  t ≠ EmptyString → last_byte (s ++ t) = last_byte t.
Proof.
  intros Ht. induction s as [| c r IH]; [reflexivity |].
  change (String c r ++ t) with (String c (r ++ t)).
  simpl last_byte. rewrite IH.
  destruct (r ++ t) eqn:Hrt; [| reflexivity].
  destruct r; [simpl in Hrt; contradiction | discriminate Hrt].
Qed.

Lemma app_not_empty (s t : string) : t ≠ EmptyString → s ++ t ≠ EmptyString.
Proof. destruct s; [now simpl | discriminate]. Qed.

Lemma deviceCmd_is_not_deviceNumCmd (targetPath deviceCmdOut : string) :
  deviceCmd targetPath ≠ deviceNumCmd deviceCmdOut.
Proof.
  intros Heq. apply (f_equal last_byte) in Heq.
  unfold deviceCmd, deviceNumCmd in Heq.
  rewrite !last_byte_app in Heq by (repeat apply app_not_empty; discriminate).
  discriminate Heq.
Qed.

(** A list of calls written out in full holds no call twice. *)
Ltac distinct_calls :=
  repeat (apply NoDup_cons; split;
          [ rewrite ?elem_of_cons, elem_of_nil; intuition discriminate |]);
  apply NoDup_nil_2.

Lemma GetDefaultAK_asks_once (w : World) : NoDup (trace w GetDefaultAK).
Proof.
  rewrite GetDefaultAK_trace, GetSTSAK_trace.
  destruct (_ || _); [destruct (metadata_Role w) |]; simpl;
    distinct_calls.
Qed.

Lemma updateEcsClent_asks_once (w : World) (client : ecsClient) :
  NoDup (trace w (updateEcsClent client)).
Proof.
  unfold updateEcsClent. rewrite trace_bind, GetDefaultAK_trace, GetSTSAK_trace.
  destruct (result w GetDefaultAK) as [[id secret] token].
  destruct (token =? "") eqn:Htoken; simpl negb; cbv iota.
  - rewrite trace_ret.
    destruct (_ || _); [destruct (metadata_Role w) |]; simpl;
      distinct_calls.
  - apply String.eqb_neq in Htoken.
    replace (trace w (newEcsClient id secret token))
      with [NewClientWithStsToken DEFAULT_REGION id secret token]
      by (unfold trace; now rewrite newEcsClient_with_token).
    destruct (_ || _); [destruct (metadata_Role w) |]; simpl;
      distinct_calls.
Qed.

Lemma GetDeviceMountNum_asks_once (w : World) (targetPath : string) :
  NoDup (trace w (GetDeviceMountNum targetPath)).
Proof.
  unfold GetDeviceMountNum. rewrite trace_bind, run_trace, run_result.
  destruct (exec_CombinedOutput w "sh" ["-c"; deviceCmd targetPath]) as [device [e |]].
  - simpl. apply NoDup_singleton.
  - cbv beta iota. rewrite trace_bind, run_trace, run_result.
    assert (Htail : ∀ p : string * option error,
               trace w (let '(count, err) := p in
                        match err with
                        | Some _ => mret 0%Z
                        | None => match strconv.Atoi count with
                                  | Failed _ => mret 0%Z
                                  | Done num => mret num
                                  end
                        end) = []).
    { intros [count [e |]]; [reflexivity |]. now destruct (strconv.Atoi count). }
    rewrite Htail. simpl.
    apply NoDup_cons. split; [| apply NoDup_singleton].
    rewrite list_elem_of_singleton. intros Heq.
    apply (deviceCmd_is_not_deviceNumCmd targetPath (strings.TrimSuffix device LF)).
    congruence.
Qed.

Lemma getDiskVolumeOptions_asks_once {U : strings.UnicodeTables} {F : fmt.Formatter}
    (w : World) (opts : gmap string string) :
  NoDup (trace w (getDiskVolumeOptions opts)).
Proof.
  rewrite getDiskVolumeOptions_trace.
  destruct (opts !! "zoneId"), (opts !! "regionId"); simpl;
    distinct_calls.
Qed.

(** * Further properties of the file *)

(** ** What the parser accepts *)

Lemma fsType_check (v : string) :
  negb (v =? "ext4") && negb (v =? "ext3") = false ↔ v = "ext3" ∨ v = "ext4".
Proof.
  rewrite andb_false_iff, !negb_false_iff, !String.eqb_eq. tauto.
Qed.

Lemma type_check (v : string) :
  negb (v =? DISK_HIGH_AVAIL) && negb (v =? DISK_COMMON)
  && negb (v =? DISK_EFFICIENCY) && negb (v =? DISK_SSD) = false
  ↔ v = DISK_HIGH_AVAIL ∨ v = DISK_COMMON ∨ v = DISK_EFFICIENCY ∨ v = DISK_SSD.
Proof.
  rewrite !andb_false_iff, !negb_false_iff, !String.eqb_eq. tauto.
Qed.

(** X1.  [getDiskVolumeOptions] returns a request with a nil error exactly
    when [fsType] is absent or is [ext3] or [ext4], and [type] is absent or
    is one of the four categories; in every other case it returns a nil
    request with an error.  It never returns both, and never neither. *)
Theorem getDiskVolumeOptions_accepts_iff {U : strings.UnicodeTables} {F : fmt.Formatter}
    (w : World) (opts : gmap string string) :
  ((∃ a, result w (getDiskVolumeOptions opts) = (Some a, None))
   ↔ (∀ v, opts !! "fsType" = Some v → v = "ext3" ∨ v = "ext4")
     ∧ (∀ v, opts !! "type" = Some v →
             v = DISK_HIGH_AVAIL ∨ v = DISK_COMMON ∨ v = DISK_EFFICIENCY ∨ v = DISK_SSD))
  ∧ ((∃ a, result w (getDiskVolumeOptions opts) = (Some a, None))
     ∨ (∃ e, result w (getDiskVolumeOptions opts) = (None, Some e))).
Proof.
  rewrite getDiskVolumeOptions_result. cbv zeta.
  destruct (negb _ && negb _) eqn:Hfs.
  { split; [| right; eauto]. split; [intros [a [=]] |].
    intros [Hvalid _]. exfalso.
    destruct (opts !! "fsType") as [v |]; simpl in Hfs; [| discriminate Hfs].
    rewrite (proj2 (fsType_check v)) in Hfs; [discriminate Hfs | now apply Hvalid]. }
  destruct (negb _ && negb _ && negb _ && negb _) eqn:Hty.
  { split; [| right; eauto]. split; [intros [a [=]] |].
    intros [_ Hvalid]. exfalso.
    destruct (opts !! "type") as [v |]; simpl in Hty; [| discriminate Hty].
    rewrite (proj2 (type_check v)) in Hty; [discriminate Hty | now apply Hvalid]. }
  split; [| left; eauto]. split; [| eauto].
  intros _. split; intros v Hv; rewrite Hv in *; simpl in *.
  - now apply fsType_check.
  - now apply type_check.
Qed.

(** X2.  A request the parser returns always has a filesystem type that is
    [ext3] or [ext4] and a category that is one of the four: the caller's
    value when the key is present, [ext4] and [available] when it is not. *)
Theorem getDiskVolumeOptions_output_valid {U : strings.UnicodeTables} {F : fmt.Formatter}
    (w : World) (opts : gmap string string) (a : diskVolumeArgs) :
  result w (getDiskVolumeOptions opts) = (Some a, None) →
  (FsType a = "ext3" ∨ FsType a = "ext4")
  ∧ (Type_ a = DISK_HIGH_AVAIL ∨ Type_ a = DISK_COMMON
     ∨ Type_ a = DISK_EFFICIENCY ∨ Type_ a = DISK_SSD)
  ∧ FsType a = default "ext4" (opts !! "fsType")
  ∧ Type_ a = default "available" (opts !! "type").
Proof.
  rewrite getDiskVolumeOptions_result. cbv zeta.
  destruct (negb _ && negb _) eqn:Hfs; [discriminate |].
  destruct (negb _ && negb _ && negb _ && negb _) eqn:Hty; [discriminate |].
  intros [= <-]. simpl FsType. simpl Type_.
  apply fsType_check in Hfs. apply type_check in Hty. auto.
Qed.

Lemma getDiskVolumeOptions_output_valid_witness :
  let a := mkDiskVolumeArgs "cn-hangzhou-b" "cn-hangzhou" "ext4" "cloud_ssd" false false in
  result role_world (getDiskVolumeOptions (U := ascii_only) (F := plain_formats) (<["type" := "cloud_ssd"]> ∅))
  = (Some a, None)
  ∧ (FsType a = "ext3" ∨ FsType a = "ext4")
  ∧ FsType a = "ext4".
Proof.
  intros a.
  assert (Hparse : result role_world
                     (getDiskVolumeOptions (U := ascii_only) (F := plain_formats) (<["type" := "cloud_ssd"]> ∅))
                   = (Some a, None)) by reflexivity.
  split; [exact Hparse |].
  destruct (getDiskVolumeOptions_output_valid (U := ascii_only) (F := plain_formats) role_world _ a Hparse)
    as (Hfs & _ & Hdefault & _).
  split; [exact Hfs | exact Hdefault].
Defined.

(** X3.  The parser reads the six keys [zoneId], [regionId], [fsType],
    [type], [readOnly] and [encrypted] and no other: two options maps that
    agree on these six give the same result and the same calls, whatever
    else they hold. *)
Theorem getDiskVolumeOptions_reads_six_keys {U : strings.UnicodeTables} {F : fmt.Formatter}
    (w : World) (opts opts' : gmap string string) :
  (∀ k, In k ["zoneId"; "regionId"; "fsType"; "type"; "readOnly"; "encrypted"] →
        opts !! k = opts' !! k) →
  exec w (getDiskVolumeOptions opts) = exec w (getDiskVolumeOptions opts').
Proof.
  intros Hsame.
  assert (Hexec : ∀ o, exec w (getDiskVolumeOptions o)
                       = (result w (getDiskVolumeOptions o), trace w (getDiskVolumeOptions o))).
  { intros o. unfold result, trace. now destruct (exec w (getDiskVolumeOptions o)). }
  rewrite !Hexec, !getDiskVolumeOptions_result, !getDiskVolumeOptions_trace.
  rewrite !Hsame by (simpl; tauto). reflexivity.
Qed.

Lemma getDiskVolumeOptions_reads_six_keys_witness :
  exec role_world
    (getDiskVolumeOptions (U := ascii_only) (F := plain_formats) (<["fsType" := "ext3"]> ∅))
  = exec role_world
      (getDiskVolumeOptions (U := ascii_only) (F := plain_formats)
         (<["diskTags" := "a:b"]> (<["fsType" := "ext3"]> ∅))).
Proof.
  apply (getDiskVolumeOptions_reads_six_keys (U := ascii_only) (F := plain_formats)).
  intros k Hk. simpl in Hk.
  destruct Hk as [<- | [<- | [<- | [<- | [<- | [<- | []]]]]]]; reflexivity.
Defined.

Lemma hasVerb_app (s t : string) :
  fmt.hasVerb (s ++ t) = fmt.hasVerb s || fmt.hasVerb t.
Proof.
  induction s as [| c r IH]; [reflexivity |].
  change (String c r ++ t) with (String c (r ++ t)). simpl.
  now rewrite IH, orb_assoc.
Qed.

(** X4.  The filesystem type is checked before the category.  A bad
    [fsType] gives the fixed message [illegal required parameter fsType],
    whatever [type] holds.  With a good or absent [fsType], a bad [type]
    gives the error [fmt.Errorf] makes of the format
    [Illegal required parameter type] followed at once, with no space, by
    the offending value: the value is part of the format, so a [%] in it
    is read as a verb, and for a value without [%] the message is that
    text as it stands. *)
Theorem getDiskVolumeOptions_error_message {U : strings.UnicodeTables} {F : fmt.Formatter}
    (w : World) (opts : gmap string string) :
  (∀ v, opts !! "fsType" = Some v → v ≠ "ext3" → v ≠ "ext4" →
        result w (getDiskVolumeOptions opts)
        = (None, Some "illegal required parameter fsType"))
  ∧ (∀ v, (∀ fs, opts !! "fsType" = Some fs → fs = "ext3" ∨ fs = "ext4") →
          opts !! "type" = Some v →
          v ≠ DISK_HIGH_AVAIL → v ≠ DISK_COMMON → v ≠ DISK_EFFICIENCY → v ≠ DISK_SSD →
          result w (getDiskVolumeOptions opts)
          = (None, Some (fmt.Errorf ("Illegal required parameter type" ++ v)))
          ∧ (fmt.hasVerb v = false →
             result w (getDiskVolumeOptions opts)
             = (None, Some ("Illegal required parameter type" ++ v)))
          ∧ (fmt.hasVerb v = true →
             result w (getDiskVolumeOptions opts)
             = (None, Some (fmt.expandVerbs ("Illegal required parameter type" ++ v))))).
Proof.
  rewrite getDiskVolumeOptions_result. cbv zeta. split.
  - intros v -> Hext3 Hext4. simpl default.
    apply String.eqb_neq in Hext3, Hext4. now rewrite Hext3, Hext4.
  - intros v Hfs -> Ha Hc He Hs. simpl default.
    assert (negb (default "ext4" (opts !! "fsType") =? "ext4")
            && negb (default "ext4" (opts !! "fsType") =? "ext3") = false) as ->.
    { destruct (opts !! "fsType") as [fs |]; [| reflexivity].
      apply fsType_check. now apply Hfs. }
    apply String.eqb_neq in Ha, Hc, He, Hs. rewrite Ha, Hc, He, Hs. simpl andb. cbv iota.
    split; [reflexivity |].
    unfold fmt.Errorf. rewrite hasVerb_app. simpl orb.
    split; now intros ->.
Qed.

(** X5.  The metadata lookups come before the checks: whether the map is
    then accepted or rejected, the parser has asked the metadata service
    for the zone when [zoneId] is absent and for the region when
    [regionId] is absent.  It asks for nothing else, and for nothing at all
    exactly when both keys are given. *)
Theorem getDiskVolumeOptions_metadata_calls {U : strings.UnicodeTables} {F : fmt.Formatter}
    (w : World) (opts : gmap string string) :
  (In (HttpGet (METADATA_URL ++ ZONEID_TAG)) (trace w (getDiskVolumeOptions opts))
   ↔ opts !! "zoneId" = None)
  ∧ (In (HttpGet (METADATA_URL ++ REGIONID_TAG)) (trace w (getDiskVolumeOptions opts))
     ↔ opts !! "regionId" = None)
  ∧ (∀ c, In c (trace w (getDiskVolumeOptions opts)) →
          c = HttpGet (METADATA_URL ++ ZONEID_TAG) ∨ c = HttpGet (METADATA_URL ++ REGIONID_TAG))
  ∧ (trace w (getDiskVolumeOptions opts) = []
     ↔ is_Some (opts !! "zoneId") ∧ is_Some (opts !! "regionId")).
Proof.
  rewrite getDiskVolumeOptions_trace.
  destruct (opts !! "zoneId") as [zone |], (opts !! "regionId") as [region |]; simpl;
    (split; [| split; [| split]]);
    try (split; [intros Hin | intros Hnone]);
    try intros c Hin;
    repeat match goal with
           | H : _ ∨ _ |- _ => destruct H
           | H : False |- _ => destruct H
           | H : _ ∧ _ |- _ => destruct H
           | H : is_Some None |- _ => destruct H as [? [=]]
           end;
    try discriminate; try tauto; try (split; eauto); eauto.
Qed.

Lemma getDiskVolumeOptions_error_message_witness :
  result bare_world
    (getDiskVolumeOptions (U := ascii_only) (F := plain_formats)
       (<["fsType" := "xfs"]> (<["type" := "cloud_unknown"]> ∅)))
  = (None, Some "illegal required parameter fsType")
  ∧ result bare_world
      (getDiskVolumeOptions (U := ascii_only) (F := plain_formats)
         (<["fsType" := "ext3"]> (<["type" := "cloud_unknown"]> ∅)))
    = (None, Some "Illegal required parameter typecloud_unknown").
Proof.
  split.
  - apply (proj1 (getDiskVolumeOptions_error_message
                    (U := ascii_only) (F := plain_formats) bare_world _) "xfs");
      [reflexivity | discriminate | discriminate].
  - assert (Hfs : ∀ fs,
               (<["fsType" := "ext3"]> (<["type" := "cloud_unknown"]> ∅)
                : gmap string string) !! "fsType" = Some fs →
               fs = "ext3" ∨ fs = "ext4").
    { intros fs Hfs. left.
      assert (Hlookup : (<["fsType" := "ext3"]> (<["type" := "cloud_unknown"]> ∅)
                         : gmap string string) !! "fsType" = Some "ext3") by reflexivity.
      rewrite Hlookup in Hfs. now injection Hfs as <-. }
    refine (proj1 (proj2 (proj2 (getDiskVolumeOptions_error_message
                                   (U := ascii_only) (F := plain_formats) bare_world _)
                            "cloud_unknown" Hfs _ _ _ _ _)) _);
      first [reflexivity | discriminate].
Defined.

(** ** Where the credentials come from *)

(** X6.  [GetSTSAK] asks for a token only after the role lookup has
    succeeded, and only for the role name that lookup returned.  A result
    with a non-empty session token is the triple of the token the service
    issued for that role. *)
Theorem GetSTSAK_token_for_named_role (w : World) :
  (∀ rolename, In (MetaRamRoleToken rolename) (trace w GetSTSAK)
               ↔ metadata_Role w = Done rolename)
  ∧ (∀ id secret token,
       result w GetSTSAK = (id, secret, token) → token ≠ "" →
       ∃ rolename role,
         metadata_Role w = Done rolename
         ∧ metadata_RamRoleToken w rolename = Done role
         ∧ (id, secret, token) = (AccessKeyId role, AccessKeySecret role, SecurityToken role)).
Proof.
  split.
  - intros rolename. rewrite GetSTSAK_trace.
    destruct (metadata_Role w) as [r | e]; simpl.
    + split.
      * intros [Hin | [Hin | []]]; [discriminate Hin | now injection Hin as ->].
      * intros Hrole. injection Hrole as ->. auto.
    + split; [intros [Hin | []]; discriminate Hin | discriminate].
  - intros id secret token Hres Htoken. rewrite GetSTSAK_result in Hres.
    destruct (metadata_Role w) as [r | e].
    + destruct (metadata_RamRoleToken w r) as [role | e] eqn:Hissued.
      * exists r, role. injection Hres as <- <- <-. repeat split. exact Hissued.
      * injection Hres as <- <- <-. now contradiction Htoken.
    + injection Hres as <- <- <-. now contradiction Htoken.
Qed.

(** X7.  A session token in the result of [GetDefaultAK] always comes from
    the metadata service: when the token is not empty, one of the two
    environment variables was empty and the whole triple, key id and
    secret included, is the one issued for the instance role.  Nothing of
    a half-set environment is kept. *)
Theorem GetDefaultAK_token_means_sts (w : World) (id secret token : string) :
  result w GetDefaultAK = (id, secret, token) →
  token ≠ "" →
  (os_Getenv w "ACCESS_KEY_ID" = "" ∨ os_Getenv w "ACCESS_KEY_SECRET" = "")
  ∧ ∃ rolename role,
      metadata_Role w = Done rolename
      ∧ metadata_RamRoleToken w rolename = Done role
      ∧ id = AccessKeyId role ∧ secret = AccessKeySecret role ∧ token = SecurityToken role.
Proof.
  rewrite GetDefaultAK_result, GetSTSAK_result.
  destruct (_ || _) eqn:Henv.
  - apply either_empty in Henv. intros Hres Htoken. split; [exact Henv |].
    destruct (metadata_Role w) as [r | e].
    + destruct (metadata_RamRoleToken w r) as [role | e] eqn:Hissued.
      * exists r, role. injection Hres as <- <- <-. repeat split. exact Hissued.
      * injection Hres as <- <- <-. now contradiction Htoken.
    + injection Hres as <- <- <-. now contradiction Htoken.
  - intros Hres Htoken. injection Hres as <- <- <-. now contradiction Htoken.
Qed.

Lemma GetDefaultAK_token_means_sts_witness :
  ∃ rolename role,
    metadata_Role role_world = Done rolename
    ∧ metadata_RamRoleToken role_world rolename = Done role
    ∧ "STS.id" = AccessKeyId role ∧ "STS.secret" = AccessKeySecret role
    ∧ "STS.token" = SecurityToken role.
Proof.
  apply (GetDefaultAK_token_means_sts role_world "STS.id" "STS.secret" "STS.token");
    [reflexivity | discriminate].
Defined.

(** ** Building clients *)

(** X8.  [newEcsClient] calls one SDK constructor, once, always for the
    region [DEFAULT_REGION]: the access-key constructor when the token is
    empty, the STS constructor with the token otherwise.  It returns the
    client that constructor built, and nil when the constructor failed. *)
Theorem newEcsClient_one_constructor (w : World) (id secret token : string) :
  trace w (newEcsClient id secret token)
  = [if token =? "" then NewClientWithAccessKey DEFAULT_REGION id secret
     else NewClientWithStsToken DEFAULT_REGION id secret token]
  ∧ result w (newEcsClient id secret token)
    = match (if token =? ""
             then ecs_NewClientWithAccessKey w DEFAULT_REGION id secret
             else ecs_NewClientWithStsToken w DEFAULT_REGION id secret token) with
      | Done client => client
      | Failed _ => None
      end.
Proof.
  unfold newEcsClient. destruct (token =? ""); run_tree.
  - now destruct (ecs_NewClientWithAccessKey w DEFAULT_REGION id secret).
  - now destruct (ecs_NewClientWithStsToken w DEFAULT_REGION id secret token).
Qed.

(** X9.  [updateEcsClent] never calls the access-key constructor: with
    static keys it keeps the client it was given.  When the credentials
    carry a token, the client it returns does not depend on the one it was
    given.  A non-nil client can only be turned into nil by a rebuild whose
    STS constructor failed or built nothing. *)
Theorem updateEcsClent_keeps_or_rebuilds (w : World) (client : ecsClient) :
  forallb (λ c, match c with NewClientWithAccessKey _ _ _ => false | _ => true end)
          (trace w (updateEcsClent client)) = true
  ∧ (∀ other, snd (result w GetDefaultAK) ≠ "" →
              result w (updateEcsClent client) = result w (updateEcsClent other))
  ∧ (∀ id secret token,
       result w GetDefaultAK = (id, secret, token) →
       is_Some client → result w (updateEcsClent client) = None →
       token ≠ ""
       ∧ match ecs_NewClientWithStsToken w DEFAULT_REGION id secret token with
         | Done built => built = None
         | Failed _ => True
         end).
Proof.
  unfold updateEcsClent. rewrite !result_bind, trace_bind.
  split; [| split].
  - rewrite forallb_app. apply andb_true_iff. split.
    + rewrite GetDefaultAK_trace, GetSTSAK_trace.
      destruct (_ || _); [destruct (metadata_Role w) |]; reflexivity.
    + destruct (result w GetDefaultAK) as [[id secret] token].
      destruct (token =? "") eqn:Htoken; [reflexivity |].
      apply String.eqb_neq in Htoken. simpl negb. cbv iota.
      unfold trace. now rewrite newEcsClient_with_token.
  - intros other. rewrite result_bind.
    destruct (result w GetDefaultAK) as [[id secret] token]. simpl snd.
    intros Htoken. now rewrite (proj2 (String.eqb_neq _ _) Htoken).
  - intros id secret token -> [c ->].
    destruct (token =? "") eqn:Htoken; simpl negb; cbv iota.
    + rewrite result_ret. discriminate.
    + apply String.eqb_neq in Htoken. unfold result.
      rewrite newEcsClient_with_token by assumption. simpl fst.
      intros Hnil. split; [assumption |].
      now destruct (ecs_NewClientWithStsToken w DEFAULT_REGION id secret token).
Qed.

Lemma updateEcsClent_keeps_or_rebuilds_witness :
  ("STS.token" : string) ≠ ""
  ∧ match ecs_NewClientWithStsToken counting_world DEFAULT_REGION
            "STS.id" "STS.secret" "STS.token" with
    | Done built => built = None
    | Failed _ => True
    end.
Proof.
  apply (proj2 (proj2 (updateEcsClent_keeps_or_rebuilds counting_world (Some 7%N)))
           "STS.id" "STS.secret" "STS.token");
    [reflexivity | now exists 7%N | reflexivity].
Defined.

(** ** Running a shell command *)

(** X10.  [run] starts one process, [sh -c] with the command.  It returns
    either the combined output with a nil error, or an empty string with
    an error: when the command fails its output is not returned, it is
    only quoted in the error message, after the command and before the
    error of the process. *)
Theorem run_output_or_error (w : World) (cmd : string) :
  trace w (run cmd) = [CombinedOutput "sh" ["-c"; cmd]]
  ∧ (snd (result w (run cmd)) = None
     ↔ snd (exec_CombinedOutput w "sh" ["-c"; cmd]) = None)
  ∧ (snd (result w (run cmd)) = None →
     fst (result w (run cmd)) = fst (exec_CombinedOutput w "sh" ["-c"; cmd]))
  ∧ (∀ msg, snd (result w (run cmd)) = Some msg →
       fst (result w (run cmd)) = ""
       ∧ ∃ out e, exec_CombinedOutput w "sh" ["-c"; cmd] = (out, Some e)
                  ∧ msg = "Failed to run cmd: " ++ cmd ++ ", with out: " ++ out
                          ++ ", error: " ++ e ++ " ").
Proof.
  rewrite run_trace, run_result.
  destruct (exec_CombinedOutput w "sh" ["-c"; cmd]) as [out [e |]]; simpl.
  - split; [reflexivity |]. split; [split; discriminate |]. split; [discriminate |].
    intros msg [= <-]. split; [reflexivity |]. now exists out, e.
  - split; [reflexivity |]. split; [split; reflexivity |].
    split; [reflexivity | discriminate].
Qed.

(** ** Counting the mounts, continued *)

Lemma GetDeviceMountNum_result (w : World) (targetPath : string) :
  result w (GetDeviceMountNum targetPath)
  = match exec_CombinedOutput w "sh" ["-c"; deviceCmd targetPath] with
    | (_, Some _) => 0%Z
    | (device, None) =>
        match exec_CombinedOutput w "sh"
                ["-c"; deviceNumCmd (strings.TrimSuffix device LF)] with
        | (_, Some _) => 0%Z
        | (count, None) =>
            match strconv.Atoi count with
            | Done num => num
            | Failed _ => 0%Z
            end
        end
    end.
Proof.
  unfold GetDeviceMountNum. rewrite result_bind, run_result.
  destruct (exec_CombinedOutput w "sh" ["-c"; deviceCmd targetPath]) as [device [e |]];
    [reflexivity |].
  cbv beta iota. rewrite result_bind, run_result.
  destruct (exec_CombinedOutput w "sh" ["-c"; deviceNumCmd (strings.TrimSuffix device LF)])
    as [count [e |]]; [reflexivity |].
  cbv beta iota. now destruct (strconv.Atoi count).
Qed.

Lemma GetDeviceMountNum_trace (w : World) (targetPath : string) :
  trace w (GetDeviceMountNum targetPath)
  = match exec_CombinedOutput w "sh" ["-c"; deviceCmd targetPath] with
    | (_, Some _) => [CombinedOutput "sh" ["-c"; deviceCmd targetPath]]
    | (device, None) =>
        [CombinedOutput "sh" ["-c"; deviceCmd targetPath];
         CombinedOutput "sh" ["-c"; deviceNumCmd (strings.TrimSuffix device LF)]]
    end.
Proof.
  unfold GetDeviceMountNum. rewrite trace_bind, run_trace, run_result.
  destruct (exec_CombinedOutput w "sh" ["-c"; deviceCmd targetPath]) as [device [e |]];
    [reflexivity |].
  cbv beta iota. rewrite trace_bind, run_trace, run_result.
  destruct (exec_CombinedOutput w "sh" ["-c"; deviceNumCmd (strings.TrimSuffix device LF)])
    as [count [e |]]; [reflexivity |].
  cbv beta iota. now destruct (strconv.Atoi count).
Qed.

Lemma GetDeviceMountNum_count_with_LF_witness :
  result role_world (GetDeviceMountNum "/mnt/disk") = 0%Z.
Proof.
  apply (GetDeviceMountNum_count_with_LF role_world "/mnt/disk" ("/dev/vdb" ++ LF) "3");
    reflexivity.
Defined.

Lemma substring_all (s : string) : substring 0 (String.length s) s = s.
Proof. induction s as [| c r IH]; simpl; [reflexivity | now rewrite IH]. Qed.

Lemma substring_split (s : string) (n : nat) :
  (n ≤ String.length s)%nat →
  s = substring 0 n s ++ substring n (String.length s - n) s.
Proof.
  revert n. induction s as [| c r IH]; intros [| n] Hn; simpl in *.
  - reflexivity.
  - lia.
  - now rewrite substring_all.
  - change (String c r = String c (substring 0 n r ++ substring n (String.length r - n) r)).
    f_equal. apply IH. lia.
Qed.

(** What [strings.TrimSuffix] removes is the suffix, and nothing else. *)
Lemma TrimSuffix_app (s suffix : string) :
  strings.HasSuffix s suffix = true → strings.TrimSuffix s suffix ++ suffix = s.
Proof.
  intros Hsuffix. unfold strings.TrimSuffix. rewrite Hsuffix.
  unfold strings.HasSuffix in Hsuffix.
  apply andb_true_iff in Hsuffix as [Hlen Hend].
  apply Nat.leb_le in Hlen. apply String.eqb_eq in Hend.
  set (n := (String.length s - String.length suffix)%nat) in *.
  transitivity (substring 0 n s ++ substring n (String.length s - n) s);
    [| symmetry; apply substring_split; lia].
  f_equal. replace (String.length s - n)%nat with (String.length suffix) by lia.
  now symmetry.
Qed.

(** X12.  A count other than 0 is only returned when both shell commands
    succeeded and the whole output of the second, with no line feed or
    other byte left over, is that number in decimal. *)
Theorem GetDeviceMountNum_nonzero_means_counted (w : World) (targetPath : string) :
  (result w (GetDeviceMountNum targetPath) =? 0)%Z = false →
  ∃ device count,
    exec_CombinedOutput w "sh" ["-c"; deviceCmd targetPath] = (device, None)
    ∧ exec_CombinedOutput w "sh" ["-c"; deviceNumCmd (strings.TrimSuffix device LF)]
      = (count, None)
    ∧ strconv.Atoi count = Done (result w (GetDeviceMountNum targetPath))
    ∧ strings.HasSuffix count LF = false.
Proof.
  rewrite GetDeviceMountNum_result.
  destruct (exec_CombinedOutput w "sh" ["-c"; deviceCmd targetPath]) as [device [e |]];
    [discriminate |].
  destruct (exec_CombinedOutput w "sh" ["-c"; deviceNumCmd (strings.TrimSuffix device LF)])
    as [count [e |]] eqn:Hsecond; [discriminate |].
  destruct (strconv.Atoi count) as [num | e] eqn:Hparse; [| discriminate].
  intros _. exists device, count.
  split; [reflexivity |]. split; [exact Hsecond |]. split; [exact Hparse |].
  destruct (strings.HasSuffix count LF) eqn:Hsuffix; [| reflexivity].
  exfalso. rewrite <- (TrimSuffix_app count LF Hsuffix), Atoi_rejects_trailing_LF in Hparse.
  discriminate Hparse.
Qed.

Lemma GetDeviceMountNum_nonzero_means_counted_witness :
  ∃ device count,
    exec_CombinedOutput counting_world "sh" ["-c"; deviceCmd "/mnt/disk"] = (device, None)
    ∧ exec_CombinedOutput counting_world "sh"
        ["-c"; deviceNumCmd (strings.TrimSuffix device LF)] = (count, None)
    ∧ strconv.Atoi count = Done (result counting_world (GetDeviceMountNum "/mnt/disk"))
    ∧ strings.HasSuffix count LF = false.
Proof.
  apply (GetDeviceMountNum_nonzero_means_counted counting_world "/mnt/disk").
  reflexivity.
Defined.

(** X13.  [GetDeviceMountNum] runs the listing command for the target
    path first and, only when that succeeded, the counting command for
    the device name it printed, less one final line feed; it runs nothing
    else, and nothing after a failure of the first. *)
Theorem GetDeviceMountNum_commands (w : World) (targetPath : string) :
  (∀ out e, exec_CombinedOutput w "sh" ["-c"; deviceCmd targetPath] = (out, Some e) →
            trace w (GetDeviceMountNum targetPath)
            = [CombinedOutput "sh" ["-c"; deviceCmd targetPath]])
  ∧ (∀ device, exec_CombinedOutput w "sh" ["-c"; deviceCmd targetPath] = (device, None) →
               trace w (GetDeviceMountNum targetPath)
               = [CombinedOutput "sh" ["-c"; deviceCmd targetPath];
                  CombinedOutput "sh"
                    ["-c"; deviceNumCmd (strings.TrimSuffix device LF)]]).
Proof.
  rewrite GetDeviceMountNum_trace. split.
  - now intros out e ->.
  - now intros device ->.
Qed.

Lemma GetDeviceMountNum_commands_witness :
  trace bare_world (GetDeviceMountNum "/mnt/disk")
  = [CombinedOutput "sh" ["-c"; deviceCmd "/mnt/disk"]]
  ∧ trace role_world (GetDeviceMountNum "/mnt/disk")
    = [CombinedOutput "sh" ["-c"; deviceCmd "/mnt/disk"];
       CombinedOutput "sh" ["-c"; deviceNumCmd "/dev/vdb"]].
Proof.
  split.
  - apply (proj1 (GetDeviceMountNum_commands bare_world "/mnt/disk")
             EmptyString "exit status 127").
    reflexivity.
  - apply (proj2 (GetDeviceMountNum_commands role_world "/mnt/disk") ("/dev/vdb" ++ LF)).
    reflexivity.
Defined.

(** ** The filesystem helpers *)

(** X14.  [IsFileExisting] makes one [os.Stat] and says no only when that
    fails with "no such file or directory".  Any other failure of the
    [Stat], a permission error for one, is reported as an existing
    file. *)
Theorem IsFileExisting_false_iff_missing (h : hostfs.Host) (filename : string) :
  hostfs.trace h (IsFileExisting filename) = [hostfs.Stat filename]
  ∧ (hostfs.result h (IsFileExisting filename) = false
     ↔ ∃ op path,
         snd (hostfs.os_Stat h filename) = Some (hostfs.PathError op path hostfs.ENOENT)).
Proof.
  unfold IsFileExisting, hostfs.result, hostfs.trace. simpl.
  destruct (hostfs.os_Stat h filename) as [fi [[| op path errno | msg] |]]; simpl;
    try destruct (errno =? hostfs.ENOENT)%N eqn:Herrno; simpl;
    (split; [reflexivity |]).
  - split; [discriminate | intros (op & path & [=])].
  - apply N.eqb_eq in Herrno as ->. split; [eauto | reflexivity].
  - apply N.eqb_neq in Herrno.
    split; [discriminate | intros (op' & path' & [= _ _ ->]); now contradiction Herrno].
  - split; [discriminate | intros (op & path & [=])].
  - split; [discriminate | intros (op & path & [=])].
Qed.

(** X15.  [IsDirEmpty] answers true only together with a nil error, and
    exactly when the directory could be opened and reading one entry hit
    the end of the directory.  It answers false with a nil error exactly
    when an entry was read; every other case is false with the error of
    the open or of the read. *)
Theorem IsDirEmpty_true_iff_end_of_directory (h : hostfs.Host) (name : string) :
  (hostfs.result h (IsDirEmpty name) = (true, None)
   ↔ ∃ f, hostfs.os_Open h name = (f, None)
          ∧ snd (hostfs.file_Readdir h f 1) = Some hostfs.EOF)
  ∧ (fst (hostfs.result h (IsDirEmpty name)) = true
     → snd (hostfs.result h (IsDirEmpty name)) = None)
  ∧ (hostfs.result h (IsDirEmpty name) = (false, None)
     ↔ ∃ f, hostfs.os_Open h name = (f, None)
            ∧ snd (hostfs.file_Readdir h f 1) = None).
Proof.
  unfold IsDirEmpty, hostfs.result. simpl.
  destruct (hostfs.os_Open h name) as [f [e |]]; simpl.
  - split; [| split].
    + split; [discriminate | intros (f' & [=] & _)].
    + discriminate.
    + split; [discriminate | intros (f' & [=] & _)].
  - destruct (hostfs.file_Readdir h f 1) as [entries [[| op path errno | msg] |]] eqn:Hread;
      simpl; (split; [| split]);
      try (split; [intros Hres | intros (f' & Hopen & Hend)]);
      try discriminate; try reflexivity;
      try (injection Hopen as <-; rewrite Hread in Hend; discriminate Hend);
      exists f; rewrite Hread; now split.
Qed.

(** X16.  [IsDirEmpty] closes the directory it opened, on every path: after
    a successful open it reads at most one entry and then closes that same
    file; after a failed open it touches nothing more and hands the error
    of the open back. *)
Theorem IsDirEmpty_closes_what_it_opens (h : hostfs.Host) (name : string) :
  (∀ f, hostfs.os_Open h name = (f, None) →
        hostfs.trace h (IsDirEmpty name)
        = [hostfs.Open name; hostfs.Readdir f 1; hostfs.Close f])
  ∧ (∀ f e, hostfs.os_Open h name = (f, Some e) →
            hostfs.trace h (IsDirEmpty name) = [hostfs.Open name]
            ∧ hostfs.result h (IsDirEmpty name) = (false, Some e)).
Proof.
  unfold IsDirEmpty, hostfs.result, hostfs.trace. simpl. split.
  - intros f ->. simpl. now destruct (hostfs.file_Readdir h f 1) as [entries err].
  - intros f e ->. now simpl.
Qed.

Lemma IsDirEmpty_closes_what_it_opens_witness :
  hostfs.trace example_host (IsDirEmpty "/mnt/data")
  = [hostfs.Open "/mnt/data"; hostfs.Readdir 4%N 1; hostfs.Close 4%N]
  ∧ hostfs.result example_host (IsDirEmpty "/mnt/new")
    = (false, Some (hostfs.PathError "open" "/mnt/new" hostfs.ENOENT)).
Proof.
  split.
  - apply (proj1 (IsDirEmpty_closes_what_it_opens example_host "/mnt/data") 4%N).
    reflexivity.
  - apply (proj2 (IsDirEmpty_closes_what_it_opens example_host "/mnt/new") 0%N).
    reflexivity.
Defined.

Lemma createDest_exec (h : hostfs.Host) (dest : string) :
  hostfs.exec h (createDest dest)
  = let '(fi, err) := hostfs.os_Lstat h dest in
    let after :=
      match fi with
      | Some info =>
          if hostfs.IsDir info then None
          else Some (hostfs.errorString (dest ++ " already exist and it's not a directory"))
      | None => None
      end in
    if hostfs.IsNotExist err
    then (match hostfs.os_MkdirAll h dest perm_0777 with
          | Some e => Some e
          | None => after
          end,
          [hostfs.Lstat dest; hostfs.MkdirAll dest perm_0777])
    else (match err with
          | Some e => Some e
          | None => after
          end,
          [hostfs.Lstat dest]).
Proof.
  unfold createDest. simpl.
  destruct (hostfs.os_Lstat h dest) as [fi err].
  destruct (hostfs.IsNotExist err); simpl.
  - destruct (hostfs.os_MkdirAll h dest perm_0777); [reflexivity |].
    destruct fi as [info |]; [| reflexivity]. now destruct (hostfs.IsDir info).
  - destruct err; [reflexivity |].
    destruct fi as [info |]; [| reflexivity]. now destruct (hostfs.IsDir info).
Qed.

(** X17.  [createDest] looks at the path with [os.Lstat] and calls
    [os.MkdirAll] exactly when the path does not exist, for that path and
    with mode 0777; it never creates on top of something that is there. *)
Theorem createDest_mkdir_iff_missing (h : hostfs.Host) (dest : string) :
  (∀ path perm, In (hostfs.MkdirAll path perm) (hostfs.trace h (createDest dest))
                ↔ path = dest ∧ perm = 511%N
                  ∧ hostfs.IsNotExist (snd (hostfs.os_Lstat h dest)) = true)
  ∧ ∃ rest, hostfs.trace h (createDest dest) = hostfs.Lstat dest :: rest.
Proof.
  unfold hostfs.trace. rewrite createDest_exec.
  destruct (hostfs.os_Lstat h dest) as [fi err]. cbv zeta. simpl snd at 2.
  destruct (hostfs.IsNotExist err); simpl; (split; [| eauto]); intros path perm.
  - split.
    + intros [[=] | [[= <- <-] | []]]. repeat split.
    + intros (-> & -> & _). right. left. reflexivity.
  - split.
    + intros [[=] | []].
    + intros (_ & _ & [=]).
Qed.

(** X18.  [createDest] returns nil exactly when the path is usable as a
    directory afterwards as far as it looked: a missing path that
    [MkdirAll] created, or a path [Lstat] found without error, and in
    either case nothing found there that is not a directory. *)
Theorem createDest_succeeds_iff (h : hostfs.Host) (dest : string) :
  hostfs.result h (createDest dest) = None
  ↔ (if hostfs.IsNotExist (snd (hostfs.os_Lstat h dest))
     then hostfs.os_MkdirAll h dest 511 = None
     else snd (hostfs.os_Lstat h dest) = None)
    ∧ (∀ info, fst (hostfs.os_Lstat h dest) = Some info → hostfs.IsDir info = true).
Proof.
  unfold hostfs.result. rewrite createDest_exec.
  destruct (hostfs.os_Lstat h dest) as [fi err]. cbv zeta. simpl fst. simpl snd.
  change perm_0777 with 511%N.
  destruct (hostfs.IsNotExist err); simpl.
  - destruct (hostfs.os_MkdirAll h dest 511) as [e |].
    + split; [discriminate | intros [[=] _]].
    + destruct fi as [info |].
      * destruct (hostfs.IsDir info) eqn:Hdir.
        -- split; [| reflexivity]. intros _. split; [reflexivity |]. now intros ? [= <-].
        -- split; [discriminate |]. intros [_ Hall].
           specialize (Hall info eq_refl). rewrite Hdir in Hall. discriminate Hall.
      * split; [| reflexivity]. intros _. split; [reflexivity | discriminate].
  - destruct err as [e |].
    + split; [discriminate | intros [[=] _]].
    + destruct fi as [info |].
      * destruct (hostfs.IsDir info) eqn:Hdir.
        -- split; [| reflexivity]. intros _. split; [reflexivity |]. now intros ? [= <-].
        -- split; [discriminate |]. intros [_ Hall].
           specialize (Hall info eq_refl). rewrite Hdir in Hall. discriminate Hall.
      * split; [| reflexivity]. intros _. split; [reflexivity | discriminate].
Qed.

(** X19.  The three ways [createDest] fails.  Something that is there and
    is not a directory gives the message "<dest> already exist and it's
    not a directory", and nothing is created or removed.  An [Lstat]
    error other than "does not exist" is handed back as it is, and
    nothing is created.  A failing [MkdirAll] hands its own error back. *)
Theorem createDest_errors (h : hostfs.Host) (dest : string) :
  (∀ info, hostfs.os_Lstat h dest = (Some info, None) → hostfs.IsDir info = false →
           hostfs.result h (createDest dest)
           = Some (hostfs.errorString (dest ++ " already exist and it's not a directory"))
           ∧ hostfs.trace h (createDest dest) = [hostfs.Lstat dest])
  ∧ (∀ fi e, hostfs.os_Lstat h dest = (fi, Some e) → hostfs.IsNotExist (Some e) = false →
             hostfs.result h (createDest dest) = Some e
             ∧ hostfs.trace h (createDest dest) = [hostfs.Lstat dest])
  ∧ (∀ fi e e', hostfs.os_Lstat h dest = (fi, Some e) → hostfs.IsNotExist (Some e) = true →
                hostfs.os_MkdirAll h dest 511 = Some e' →
                hostfs.result h (createDest dest) = Some e').
Proof.
  unfold hostfs.result, hostfs.trace. rewrite createDest_exec.
  change perm_0777 with 511%N.
  split; [| split].
  - intros info -> Hdir. simpl. now rewrite Hdir.
  - intros fi e -> Hother. cbv zeta beta iota. now rewrite Hother.
  - intros fi e e' -> Hmissing Hmkdir. cbv zeta beta iota.
    now rewrite Hmissing, Hmkdir.
Qed.

Lemma createDest_errors_witness :
  (hostfs.result example_host (createDest "/etc/hosts")
   = Some (hostfs.errorString "/etc/hosts already exist and it's not a directory")
   ∧ hostfs.trace example_host (createDest "/etc/hosts") = [hostfs.Lstat "/etc/hosts"])
  ∧ (hostfs.result example_host (createDest "/root/secret")
     = Some (hostfs.PathError "lstat" "/root/secret" hostfs.EACCES)
     ∧ hostfs.trace example_host (createDest "/root/secret") = [hostfs.Lstat "/root/secret"])
  ∧ hostfs.result example_host (createDest "/proc/x")
    = Some (hostfs.PathError "mkdir" "/proc/x" hostfs.EACCES).
Proof.
  split; [| split].
  - apply (proj1 (createDest_errors example_host "/etc/hosts")
             (hostfs.mkFileInfo "hosts" false)); reflexivity.
  - apply (proj1 (proj2 (createDest_errors example_host "/root/secret")) None); reflexivity.
  - apply (proj2 (proj2 (createDest_errors example_host "/proc/x")) None
             (hostfs.PathError "lstat" "/proc/x" hostfs.ENOENT)); reflexivity.
Defined.

(** ** The parser on top of the metadata lookup *)

(** X20.  When the caller gives no [zoneId], whatever body the metadata
    service sends for [zone-id] becomes the zone of the request, as it is:
    the parser does not look at the status of the response either, and
    does not trim or check the text.  The same holds for [regionId] and
    [region-id]. *)
Theorem getDiskVolumeOptions_takes_metadata_body {U : strings.UnicodeTables} {F : fmt.Formatter}
    (w : World) (opts : gmap string string) (a : diskVolumeArgs) :
  result w (getDiskVolumeOptions opts) = (Some a, None) →
  (∀ resp body, opts !! "zoneId" = None →
                http_Get w (METADATA_URL ++ ZONEID_TAG) = Done resp →
                ReadAll resp = Done body →
                ZoneId a = body)
  ∧ (∀ resp body, opts !! "regionId" = None →
                  http_Get w (METADATA_URL ++ REGIONID_TAG) = Done resp →
                  ReadAll resp = Done body →
                  RegionId a = body).
Proof.
  rewrite getDiskVolumeOptions_result. cbv zeta.
  destruct (negb _ && negb _); [discriminate |].
  destruct (negb _ && negb _ && negb _ && negb _); [discriminate |].
  intros [= <-]. simpl ZoneId. simpl RegionId.
  unfold result. rewrite !GetMetaData_exec. simpl fst.
  split; intros resp body -> -> ->; reflexivity.
Qed.

Lemma getDiskVolumeOptions_takes_metadata_body_witness :
  let a := mkDiskVolumeArgs "cn-hangzhou-b" "cn-hangzhou" "ext4" "available" false false in
  result role_world (getDiskVolumeOptions (U := ascii_only) (F := plain_formats) ∅) = (Some a, None)
  ∧ ZoneId a = "cn-hangzhou-b" ∧ RegionId a = "cn-hangzhou".
Proof.
  intros a.
  assert (Hparse : result role_world (getDiskVolumeOptions (U := ascii_only) (F := plain_formats) ∅)
                   = (Some a, None)) by reflexivity.
  split; [exact Hparse |].
  destruct (getDiskVolumeOptions_takes_metadata_body (U := ascii_only) (F := plain_formats) role_world ∅ a Hparse)
    as [Hzone Hregion].
  split.
  - apply (Hzone (mkResponse 200 (Done "cn-hangzhou-b"))); reflexivity.
  - apply (Hregion (mkResponse 200 (Done "cn-hangzhou"))); reflexivity.
Defined.
